(** * shell-tools-mcp: the text-patch engine and the command runner

    A shallow embedding of [src/shell_tools_mcp_server/server.py].

    Python [str] values are lists of characters.  The functions of the
    Python runtime that the server calls ([str.replace], [str.strip],
    text-mode [open]/[read]/[readlines]/[write], list slicing,
    [subprocess.run] and [subprocess.Popen]) are modelled after their
    documented behaviour on a POSIX host, which is the platform the module
    targets (it calls [os.setsid]).  The five tools themselves are
    transcribed statement by statement in a small state-and-exception
    monad over a file store and a process table.  The [rprint] call that
    opens every tool only logs its arguments and is left out. *)

From Stdlib Require Import ZArith Ascii String DecimalString.
From stdpp Require Import base option list gmap strings.

Local Open Scope Z_scope.
Local Open Scope list_scope.

(** ** Python strings *)

Abbreviation str := (list ascii).

(** A string literal of the source. *)
Definition lit (s : string) : str := list_ascii_of_string s.
Arguments lit : simpl never.

Module PyStr.

(** [s.startswith(sub)] *)
Fixpoint starts_with (sub s : str) : bool :=
  match sub, s with
  | [], _ => true
  | _ :: _, [] => false
  | a :: sub', b :: s' => if decide (a = b) then starts_with sub' s' else false
  end.

(** [s.find(sub)]: the lowest index at which [sub] starts, if any. *)
Fixpoint find (sub s : str) : option nat :=
  if starts_with sub s then Some 0%nat
  else match s with
       | [] => None
       | _ :: s' => S <$> find sub s'
       end.

(** The substitution loop of [str.replace] for a non-empty pattern: find
    the next occurrence, copy what precedes it, emit [new], go on behind
    the occurrence; at most [maxcount] times. *)
Fixpoint replace_substring (old new : str) (maxcount : nat) (s : str) : str :=
  match maxcount with
  | O => s
  | S k =>
      match find old s with
      | None => s
      | Some i =>
          take i s ++ new ++ replace_substring old new k (drop (i + length old) s)
      end
  end.

(** [str.replace] for the empty pattern: [new] goes in front of every
    character and behind the last one, at most [maxcount] times. *)
Fixpoint replace_interleave (new : str) (maxcount : nat) (s : str) : str :=
  match maxcount with
  | O => s
  | S k =>
      new ++ match s with
             | [] => []
             | c :: s' => c :: replace_interleave new k s'
             end
  end.

(** [s.replace(old, new, count)]; a negative [count] (the default -1)
    lifts the bound: a string of length n has at most n+1 occurrences. *)
Definition replace (s old new : str) (count : Z) : str :=
  let maxcount := if count <? 0 then S (length s) else Z.to_nat count in
  match old with
  | [] => replace_interleave new maxcount s
  | _ :: _ => replace_substring old new maxcount s
  end.

(** [str.isspace] on one character, for code points below 256. *)
Definition is_space (c : ascii) : bool :=
  let n := nat_of_ascii c in
  ((9 <=? n) && (n <=? 13) || (28 <=? n) && (n <=? 32)
   || (n =? 133) || (n =? 160))%nat.

Fixpoint lstrip (s : str) : str :=
  match s with
  | [] => []
  | c :: s' => if is_space c then lstrip s' else s
  end.

Definition rstrip (s : str) : str := rev (lstrip (rev s)).

(** [s.strip()] removes leading and trailing whitespace. *)
Definition strip (s : str) : str := rstrip (lstrip s).

(** [''.join(lines)] *)
Definition join (lines : list str) : str := concat lines.

(** [str(n)] for an integer. *)
Definition of_Z (n : Z) : str :=
  lit (NilZero.string_of_int (Z.to_int n)).

End PyStr.


(** ** Text-mode file I/O

    The tools open files with [open(path, 'r')] and [open(path, 'w')]:
    text mode with the default [newline=None].  On input this is universal
    newlines: every ["\r\n"] and every lone ["\r"] is delivered as ["\n"].
    On output ["\n"] becomes [os.linesep], which is ["\n"] on POSIX, so
    writing stores the characters as they are. *)

Definition CR : ascii := "013"%char.
Definition LF : ascii := "010"%char.

Fixpoint universal_newlines (s : str) : str :=
  match s with
  | [] => []
  | c :: s' =>
      if decide (c = CR) then
        LF :: match s' with
              | [] => []
              | c' :: s'' =>
                  if decide (c' = LF) then universal_newlines s''
                  else universal_newlines s'
              end
      else c :: universal_newlines s'
  end.

(** The lines of a text, each with its terminating ["\n"] (the last one may
    lack it), as [readlines()] and iteration over a file yield them. *)
Fixpoint split_lines (s : str) : list str :=
  match s with
  | [] => []
  | c :: s' =>
      if decide (c = LF) then [c] :: split_lines s'
      else match split_lines s' with
           | [] => [[c]]
           | l :: ls => (c :: l) :: ls
           end
  end.

(** Python list slicing [l[a:b]] with step 1; [None] bounds are the ends,
    negative bounds count from the end, all bounds are clamped. *)
Definition slice_index (n : nat) (i : Z) : nat :=
  if i <? 0 then Z.to_nat (Z.max 0 (Z.of_nat n + i))
  else Z.to_nat (Z.min i (Z.of_nat n)).

Definition py_slice {A} (l : list A) (start stop : option Z) : list A :=
  let lo := from_option (slice_index (length l)) 0%nat start in
  let hi := from_option (slice_index (length l)) (length l) stop in
  take (hi - lo) (drop lo l).

(** ** Exceptions and the state-and-exception monad *)

(** What the calls of the file tools raise. *)
Inductive exn :=
| OSError (msg : str)
| TypeError (msg : str).

(** [str(e)] *)
Definition exn_str (e : exn) : str :=
  match e with
  | OSError msg | TypeError msg => msg
  end.

(** What [subprocess.Popen] and [subprocess.run] raise. *)
Inductive subprocess_exn :=
| SpawnFailed (msg : str)
| CalledProcessError (returncode : Z) (stdout stderr : str)
| TimeoutExpired (cmd : str) (timeout : Z).

Inductive outcome (E A : Type) :=
| Returned (a : A)
| Raised (e : E).
Arguments Returned {E A} a.
Arguments Raised {E A} e.

Definition M (E S A : Type) : Type := S -> outcome E A * S.

Definition ret {E S A} (a : A) : M E S A := fun s => (Returned a, s).

Definition raise {E S A} (e : E) : M E S A := fun s => (Raised e, s).

Definition bind {E S A B} (m : M E S A) (k : A -> M E S B) : M E S B :=
  fun s =>
    match m s with
    | (Returned a, s') => k a s'
    | (Raised e, s') => (Raised e, s')
    end.

(** [try: m  except ... as e: h e]; a handler that does not match the
    exception re-raises it. *)
Definition try_except {E S A} (m : M E S A) (h : E -> M E S A) : M E S A :=
  fun s =>
    match m s with
    | (Returned a, s') => (Returned a, s')
    | (Raised e, s') => h e s'
    end.

Notation "'let*' x := m 'in' k" := (bind m (fun x => k))
  (at level 10, x name, m at level 100, k at level 200, only parsing).

(** ** Replies

    Every tool returns one string.  The embedding pairs it with a tag that
    names the [return] statement that produced it. *)

Inductive status :=
| Success
| Started
| FileNotFound
| CommandFailed
| CommandTimeout
| EditFailed
| ReadFailed.

Record reply := Reply { kind : status; text : str }.

(** ** The file store *)

(** A regular file holds its characters; [read_fault] and [write_fault]
    carry the text of the error that opening it for reading or for writing
    raises, if any (permissions, an undecodable byte, ...). *)
Record file := File {
  data : str;
  read_fault : option str;
  write_fault : option str
}.

Inductive node :=
| Regular (f : file)
| Directory.

(** The calls a tool makes on the file store, in the order it makes them. *)
Inductive io_event :=
| EvIsFile (path : str)
| EvRead (path : str)
| EvWrite (path : str) (content : str).

Record world := World {
  disk : gmap str node;
  journal : list io_event
}.

Definition record (ev : io_event) (w : world) : world :=
  World (disk w) (journal w ++ [ev]).

(** [os.path.isfile(path)] *)
Definition os_path_isfile (path : str) : M exn world bool :=
  fun w =>
    (Returned match disk w !! path with
              | Some (Regular _) => true
              | _ => false
              end,
     record (EvIsFile path) w).

(** [with open(path, 'r') as file: content = file.read()] *)
Definition read_text (path : str) : M exn world str :=
  fun w =>
    let w' := record (EvRead path) w in
    match disk w !! path with
    | Some (Regular f) =>
        match read_fault f with
        | Some msg => (Raised (OSError msg), w')
        | None => (Returned (universal_newlines (data f)), w')
        end
    | Some Directory =>
        (Raised (OSError (lit "[Errno 21] Is a directory: '" ++ path ++ lit "'")), w')
    | None =>
        (Raised (OSError (lit "[Errno 2] No such file or directory: '" ++ path ++ lit "'")), w')
    end.

(** [with open(path, 'r') as file: lines = file.readlines()] *)
Definition read_lines (path : str) : M exn world (list str) :=
  let* content := read_text path in
  ret (split_lines content).

(** [with open(path, 'w') as file: file.write(content)]: the write-back of
    the whole text, taken as one step. *)
Definition write_text (path content : str) : M exn world unit :=
  fun w =>
    match disk w !! path with
    | Some (Regular f) =>
        match write_fault f with
        | Some msg => (Raised (OSError msg), w)
        | None =>
            (Returned tt,
             World (<[path := Regular (File content (read_fault f) (write_fault f))]> (disk w))
                   (journal w ++ [EvWrite path content]))
        end
    | Some Directory =>
        (Raised (OSError (lit "[Errno 21] Is a directory: '" ++ path ++ lit "'")), w)
    | None =>
        (Returned tt,
         World (<[path := Regular (File content None None)]> (disk w))
               (journal w ++ [EvWrite path content]))
    end.



(** ** Loosely typed edit entries *)

(** The values a decoded JSON request can put into an edit [dict]. *)
#[warnings="-register-all"]
Inductive pyval :=
| VNone
| VBool (b : bool)
| VInt (n : Z)
| VStr (s : str)
| VList (l : list pyval).

(** Truth value of an object, as [if x:] tests it. *)
Definition truthy (v : pyval) : bool :=
  match v with
  | VNone => false
  | VBool b => b
  | VInt n => negb (n =? 0)
  | VStr s => negb (bool_decide (s = []))
  | VList l => match l with [] => false | _ => true end
  end.

Definition type_name (v : pyval) : str :=
  match v with
  | VNone => lit "NoneType"
  | VBool _ => lit "bool"
  | VInt _ => lit "int"
  | VStr _ => lit "str"
  | VList _ => lit "list"
  end.

(** [dict.get(key, default)] *)
Definition dict_get (d : gmap str pyval) (key : str) (default : pyval) : pyval :=
  from_option id default (d !! key).

(** [content.replace(old, new, count)] on loosely typed arguments: the
    method checks its first argument, then its second. *)
Definition replace_dyn {S} (content : str) (old new : pyval) (count : Z) : M exn S str :=
  match old, new with
  | VStr o, VStr n => ret (PyStr.replace content o n count)
  | VStr _, _ =>
      raise (TypeError (lit "replace() argument 2 must be str, not " ++ type_name new))
  | _, _ =>
      raise (TypeError (lit "replace() argument 1 must be str, not " ++ type_name old))
  end.

Definition is_None (v : pyval) : bool :=
  match v with VNone => true | _ => false end.

(** ** The file tools *)

Definition file_edit (file_path old_string new_string : str) (replace_all : bool)
  : M exn world reply :=
  let* is_file := os_path_isfile file_path in
  if negb is_file then
    ret (Reply FileNotFound (lit "File not found: " ++ file_path ++ lit ". Recheck the path."))
  else
    try_except
      (let* content := read_text file_path in
       let new_content :=
         if replace_all then PyStr.replace content old_string new_string (-1)
         else PyStr.replace content old_string new_string 1 in
       let* _ := write_text file_path new_content in
       ret (Reply Success (lit "Successfully edited " ++ file_path)))
      (fun e => ret (Reply EditFailed (lit "Failed to edit file: " ++ exn_str e))).

(** The [for edit in edits:] loop of [file_multi_edit]. *)
Fixpoint apply_edits (edits : list (gmap str pyval)) (content : str) : M exn world str :=
  match edits with
  | [] => ret content
  | edit :: rest =>
      let old_string := dict_get edit (lit "old_string") VNone in
      let new_string := dict_get edit (lit "new_string") VNone in
      let replace_all := dict_get edit (lit "replace_all") (VBool false) in
      if is_None old_string || is_None new_string then apply_edits rest content
      else
        let* content' :=
          (if truthy replace_all then replace_dyn content old_string new_string (-1)
           else replace_dyn content old_string new_string 1) in
        apply_edits rest content'
  end.

Definition file_multi_edit (file_path : str) (edits : list (gmap str pyval))
  : M exn world reply :=
  let* is_file := os_path_isfile file_path in
  if negb is_file then
    ret (Reply FileNotFound (lit "File not found: " ++ file_path ++ lit ". Recheck the path."))
  else
    try_except
      (let* content := read_text file_path in
       let* content := apply_edits edits content in
       let* _ := write_text file_path content in
       ret (Reply Success (lit "Successfully applied multiple edits to " ++ file_path)))
      (fun e => ret (Reply EditFailed (lit "Failed to edit file: " ++ exn_str e))).

Definition file_read (file_path : str) (offset limit : option Z) : M exn world reply :=
  let* is_file := os_path_isfile file_path in
  if negb is_file then
    ret (Reply FileNotFound (lit "File not found: " ++ file_path ++ lit ". Recheck the path."))
  else
    try_except
      (let* lines := read_lines file_path in
       let lines := match offset with
                    | Some o => py_slice lines (Some o) None
                    | None => lines
                    end in
       let lines := match limit with
                    | Some l => py_slice lines None (Some l)
                    | None => lines
                    end in
       ret (Reply Success (PyStr.join lines)))
      (fun e => ret (Reply ReadFailed (lit "Failed to read file: " ++ exn_str e))).

Definition file_replace (file_path old_string new_string : str) (replace_all : bool)
  : M exn world reply :=
  let* is_file := os_path_isfile file_path in
  if negb is_file then
    ret (Reply FileNotFound (lit "File not found: " ++ file_path ++ lit ". Recheck the path."))
  else
    try_except
      (let* content := read_text file_path in
       let new_content :=
         if replace_all then PyStr.replace content old_string new_string (-1)
         else PyStr.replace content old_string new_string 1 in
       let* _ := write_text file_path new_content in
       ret (Reply Success (lit "Successfully replaced text in " ++ file_path)))
      (fun e => ret (Reply EditFailed (lit "Failed to replace text in file: " ++ exn_str e))).

(** ** Processes

    [subprocess.Popen] and [subprocess.run] are modelled over a process
    table.  What a command does once its shell runs is the environment's
    part: how long [communicate] has to wait for it, its exit status and
    output, and how many descendants it has running when the server stops
    waiting for it. *)

Record process := Process {
  ppid : Z;
  pgid : Z;
  alive : bool
}.

Inductive course :=
| Exits (seconds : Z) (returncode : Z) (out err : str)
| Hangs.

Record behaviour := Behaviour {
  run : course;
  offspring : nat
}.

Inductive sys_event :=
| EvSpawn (child : Z) (command : str) (cwd : option str) (setsid : bool)
| EvCommunicate (child : Z) (timeout : option Z)
| EvWait (child : Z)
| EvKill (child : Z).

Record os := OS {
  procs : gmap Z process;
  self_pid : Z;
  self_pgid : Z;
  next_pid : Z;
  shell : str -> option str -> str + behaviour;
  syslog : list sys_event
}.

(** The [Popen] object. *)
Record popen_handle := Handle {
  pid : Z;
  conduct : behaviour
}.

(** The result of [subprocess.run]. *)
Record completed := Completed {
  returncode_of : Z;
  stdout_of : str;
  stderr_of : str
}.

(** The descendants of a child live in the child's process group. *)
Fixpoint add_offspring (parent group first : Z) (n : nat) (t : gmap Z process)
  : gmap Z process :=
  match n with
  | O => t
  | S k => add_offspring parent group (first + 1) k (<[first := Process parent group true]> t)
  end.

(** The process table once a child is spawned: with [setsid] the child
    leads a new session and a new process group, otherwise it stays in the
    group of the server. *)
Definition spawned (o : os) (b : behaviour) (setsid : bool) : gmap Z process :=
  let child := next_pid o in
  let group := if setsid then child else self_pgid o in
  add_offspring child group (child + 1) (offspring b)
    (<[child := Process (self_pid o) group true]> (procs o)).

(** [Popen(command, cwd=cwd, stdout=PIPE, stderr=PIPE, text=True, shell=True)],
    with [preexec_fn=os.setsid] when [setsid] is set.  A failed spawn (a
    missing [cwd], ...) raises. *)
Definition popen (command : str) (cwd : option str) (setsid : bool)
  : M subprocess_exn os popen_handle :=
  fun o =>
    match shell o command cwd with
    | inl msg => (Raised (SpawnFailed msg), o)
    | inr b =>
        let child := next_pid o in
        (Returned (Handle child b),
         OS (spawned o b setsid) (self_pid o) (self_pgid o)
            (child + 1 + Z.of_nat (offspring b)) (shell o)
            (syslog o ++ [EvSpawn child command cwd setsid]))
    end.

Definition mark_dead (p : process) : process := Process (ppid p) (pgid p) false.

(** [process.communicate(timeout=t)]: returns status and output once the
    child has exited, which reaps it; raises [TimeoutExpired] when that takes
    longer than [t] seconds. *)
Definition communicate (command : str) (h : popen_handle) (timeout : Z) : M subprocess_exn os completed :=
  fun o =>
    let o' := OS (procs o) (self_pid o) (self_pgid o) (next_pid o) (shell o)
                 (syslog o ++ [EvCommunicate (pid h) (Some timeout)]) in
    match run (conduct h) with
    | Exits seconds rc out err =>
        if seconds <=? timeout then
          (Returned (Completed rc out err),
           OS (alter mark_dead (pid h) (procs o)) (self_pid o) (self_pgid o)
              (next_pid o) (shell o) (syslog o'))
        else (Raised (TimeoutExpired command timeout), o')
    | Hangs => (Raised (TimeoutExpired command timeout), o')
    end.

(** [process.kill()]: SIGKILL to the child, and to nothing else. *)
Definition kill (h : popen_handle) : M subprocess_exn os unit :=
  fun o =>
    (Returned tt,
     OS (alter mark_dead (pid h) (procs o)) (self_pid o) (self_pgid o)
        (next_pid o) (shell o) (syslog o ++ [EvKill (pid h)])).

(** [process.wait()] on a child that has been killed. *)
Definition wait (h : popen_handle) : M subprocess_exn os unit :=
  fun o =>
    (Returned tt,
     OS (procs o) (self_pid o) (self_pgid o) (next_pid o) (shell o)
        (syslog o ++ [EvWait (pid h)])).

(** [subprocess.run(command, cwd=cwd, stdout=PIPE, stderr=PIPE, text=True,
    timeout=timeout, shell=True, check=check)] *)
Definition subprocess_run (command : str) (cwd : option str) (timeout : Z) (check : bool)
  : M subprocess_exn os completed :=
  let* process := popen command cwd false in
  let* result :=
    try_except (communicate command process timeout)
      (fun e =>
         match e with
         | TimeoutExpired _ _ =>
             let* _ := kill process in
             let* _ := wait process in
             raise e
         | _ =>
             let* _ := kill process in
             raise e
         end) in
  if check && negb (returncode_of result =? 0) then
    raise (CalledProcessError (returncode_of result) (stdout_of result) (stderr_of result))
  else ret result.

(** ** The command tool *)

Definition run_shell_command (command : str) (cwd : option str) (timeout : Z)
    (run_in_bg : bool) : M subprocess_exn os reply :=
  try_except
    (if run_in_bg then
       let* process := popen command cwd true in
       ret (Reply Started
              (lit "Process started in background with PID " ++ PyStr.of_Z (pid process)))
     else
       let* result := subprocess_run command cwd timeout true in
       ret (Reply Success (PyStr.strip (stdout_of result))))
    (fun e =>
       match e with
       | CalledProcessError _ _ stderr =>
           ret (Reply CommandFailed (lit "Command failed: " ++ PyStr.strip stderr))
       | TimeoutExpired _ _ =>
           ret (Reply CommandTimeout (lit "Command " ++ command ++ lit " timed out"))
       | _ => raise e
       end).

(** ** What the specification says a substitution is *)

(** [old] occurs in [s] at index [i]. *)
Definition occurs_at (old s : str) (i : nat) : Prop :=
  take (length old) (drop i s) = old.

Definition occurs (old s : str) : Prop := exists i, occurs_at old s i.

(** [s] is [pre ++ old ++ post] and no occurrence of [old] starts further
    left. *)
Definition leftmost (old s pre post : str) : Prop :=
  s = pre ++ old ++ post /\ forall j, (j < length pre)%nat -> ~ occurs_at old s j.

(** Only the leftmost occurrence is substituted; without an occurrence the
    text stays. *)
Definition first_replaced (old new s r : str) : Prop :=
  (~ occurs old s /\ r = s)
  \/ exists pre post, leftmost old s pre post /\ r = pre ++ new ++ post.

(** Every non-overlapping occurrence of a non-empty [old] is substituted,
    scanning from the left. *)
Inductive all_replaced (old new : str) : str -> str -> Prop :=
| all_replaced_none s :
    ~ occurs old s -> all_replaced old new s s
| all_replaced_step s pre post r :
    leftmost old s pre post ->
    all_replaced old new post r ->
    all_replaced old new s (pre ++ new ++ r).

(** The empty text occurs in front of every character and at the end. *)
Definition interleaved (new s : str) : str :=
  new ++ concat (map (fun c => c :: new) s).

(** An edit entry that carries both texts: [old] and [new] are what the
    loop of [file_multi_edit] reads from it, [flag] is the outcome of its
    test of [replace_all]. *)
Record well_formed (e : gmap str pyval) (old new : str) (flag : bool) : Prop := {
  wf_old : e !! lit "old_string" = Some (VStr old);
  wf_new : e !! lit "new_string" = Some (VStr new);
  wf_flag : truthy (dict_get e (lit "replace_all") (VBool false)) = flag
}.

(** The entry a caller sends for one call of the edit tool. *)
Definition edit_entry (old new : str) (replace_all : bool) : gmap str pyval :=
  <[lit "old_string" := VStr old]>
    (<[lit "new_string" := VStr new]> {[ lit "replace_all" := VBool replace_all ]}).

(** A store with one file. *)
Definition one_file (path content : str) : world :=
  World {[ path := Regular (File content None None) ]} [].



(** The command is still running when [timeout] seconds are over. *)
Definition outlasts (c : course) (timeout : Z) : Prop :=
  match c with
  | Exits seconds _ _ _ => timeout < seconds
  | Hangs => True
  end.

(** A host on which the server is process 100, leads its own group, and the
    next process gets pid 101; every command behaves as [b]. *)
Definition host (b : behaviour) : os :=
  OS {[ 100 := Process 1 100 true ]} 100 100 101 (fun _ _ => inr b) [].

(** ** Vocabulary for the further properties *)

(** The test [old_string is None or new_string is None] of the loop. *)
Definition skipped (e : gmap str pyval) : bool :=
  is_None (dict_get e (lit "old_string") VNone)
  || is_None (dict_get e (lit "new_string") VNone).

Definition is_str (v : pyval) : bool :=
  match v with VStr _ => true | _ => false end.

(** An entry that passes the test but hands [str.replace] something that is
    not a string. *)
Definition ill_typed (e : gmap str pyval) : bool :=
  negb (skipped e)
  && negb (is_str (dict_get e (lit "old_string") VNone)
           && is_str (dict_get e (lit "new_string") VNone)).

(** One substitution, as [file_edit] and the loop of [file_multi_edit]
    perform it: old text, new text, replace-all flag. *)
Definition apply_op (content : str) (op : str * str * bool) : str :=
  PyStr.replace content op.1.1 op.1.2 (if op.2 then -1 else 1).

(** A list of lines as [readlines()] yields it: every line but the last
    ends in its only line feed, the last is not empty and holds no line
    feed except possibly at its end. *)
Inductive proper_lines : list str -> Prop :=
| proper_nil : proper_lines []
| proper_last l : l <> [] -> LF ∉ l -> proper_lines [l]
| proper_cons body ls :
    LF ∉ body -> proper_lines ls -> proper_lines ((body ++ [LF]) :: ls).

(** The string a call hands back, if it returns. *)
Definition text_of {E} (r : outcome E reply) : str :=
  match r with
  | Returned x => text x
  | Raised _ => []
  end.

(** ** Examples *)

Example find_ex : PyStr.find (lit "na") (lit "banana") = Some 2%nat.
Proof. reflexivity. Qed.

Example replace_all_ex :
  PyStr.replace (lit "banana") (lit "an") (lit "AN") (-1) = lit "bANANa".
Proof. reflexivity. Qed.

Example replace_overlap_ex :
  PyStr.replace (lit "aaaaa") (lit "aa") (lit "b") (-1) = lit "bba".
Proof. reflexivity. Qed.

Example replace_first_ex :
  PyStr.replace (lit "banana") (lit "an") (lit "AN") 1 = lit "bANana".
Proof. reflexivity. Qed.

Example replace_empty_ex :
  PyStr.replace (lit "abc") [] (lit "-") (-1) = lit "-a-b-c-"
  /\ PyStr.replace (lit "abc") [] (lit "-") 1 = lit "-abc"
  /\ PyStr.replace [] [] (lit "-") 1 = lit "-".
Proof. repeat split; reflexivity. Qed.

Example strip_ex :
  PyStr.strip (lit "  a b " ++ [LF]) = lit "a b".
Proof. reflexivity. Qed.

Example of_Z_ex : PyStr.of_Z 4711 = lit "4711" /\ PyStr.of_Z (-3) = lit "-3".
Proof. split; reflexivity. Qed.

Example universal_newlines_ex :
  universal_newlines (lit "a" ++ [CR; LF] ++ lit "b" ++ [CR] ++ lit "c" ++ [LF])
  = lit "a" ++ [LF] ++ lit "b" ++ [LF] ++ lit "c" ++ [LF].
Proof. reflexivity. Qed.

Example split_lines_ex :
  split_lines (lit "ab" ++ [LF; LF] ++ lit "c")
  = [lit "ab" ++ [LF]; [LF]; lit "c"].
Proof. reflexivity. Qed.

Example py_slice_ex :
  py_slice [1; 2; 3; 4; 5] (Some 1) (Some 3) = [2; 3]
  /\ py_slice [1; 2; 3; 4; 5] (Some (-2)) None = [4; 5]
  /\ py_slice [1; 2; 3; 4; 5] None (Some (-1)) = [1; 2; 3; 4]
  /\ py_slice [1; 2; 3; 4; 5] (Some 7) (Some 9) = [].
Proof. repeat split; reflexivity. Qed.

Example file_edit_ex :
  let r := file_edit (lit "/f") (lit "an") (lit "AN") false
             (one_file (lit "/f") (lit "banana")) in
  r.1 = Returned (Reply Success (lit "Successfully edited /f"))
  /\ disk r.2 !! lit "/f" = Some (Regular (File (lit "bANana") None None))
  /\ journal r.2 = [EvIsFile (lit "/f"); EvRead (lit "/f"); EvWrite (lit "/f") (lit "bANana")].
Proof. vm_compute. repeat split; reflexivity. Qed.

(** ** Facts about [str.find] and [str.replace] *)

Section ReplaceFacts.

Implicit Types (old new sub s pre post : str) (i j : nat).

Lemma starts_with_take sub s :
  PyStr.starts_with sub s = true <-> take (length sub) s = sub.
Proof.
  revert s. induction sub as [|a sub IH]; intros [|b s]; simpl; try easy.
  case_decide as Hab.
  - subst b. rewrite IH. split; congruence.
  - split; [easy | congruence].
Qed.

Lemma occurs_at_0 sub s : occurs_at sub s 0 <-> PyStr.starts_with sub s = true.
Proof. unfold occurs_at. rewrite drop_0. symmetry. apply starts_with_take. Qed.

Lemma occurs_at_S sub c s i : occurs_at sub (c :: s) (S i) <-> occurs_at sub s i.
Proof. reflexivity. Qed.

Lemma find_None sub s : PyStr.find sub s = None -> ~ occurs sub s.
Proof.
  induction s as [|c s IH]; simpl.
  - destruct (PyStr.starts_with sub []) eqn:Hs; [easy|].
    intros _ [i Hi]. unfold occurs_at in Hi. rewrite drop_nil, take_nil in Hi.
    subst sub. discriminate.
  - destruct (PyStr.starts_with sub (c :: s)) eqn:Hs; [easy|].
    destruct (PyStr.find sub s) eqn:Hf; [easy|]. intros _ [[|i] Hi].
    + apply occurs_at_0 in Hi. congruence.
    + apply IH; [done|]. by exists i.
Qed.

Lemma find_Some sub s i :
  PyStr.find sub s = Some i ->
  leftmost sub s (take i s) (drop (i + length sub) s) /\ length (take i s) = i.
Proof.
  revert i. induction s as [|c s IH]; intros i; simpl.
  - destruct (PyStr.starts_with sub []) eqn:Hs; [|easy].
    intros [= <-]. destruct sub; [|easy].
    split; [split|]; simpl; [done | intros; lia | done].
  - destruct (PyStr.starts_with sub (c :: s)) eqn:Hs.
    + intros [= <-]. apply starts_with_take in Hs. simpl.
      split; [split|done]; [|simpl; intros; lia].
      transitivity (take (length sub) (c :: s) ++ drop (length sub) (c :: s));
        [by rewrite take_drop | by rewrite Hs].
    + destruct (PyStr.find sub s) as [k|] eqn:Hf; [|easy].
      intros [= <-]. destruct (IH k eq_refl) as [[Heq Hleft] Hlen].
      simpl. split; [split|].
      * simpl. f_equal. exact Heq.
      * intros [|j] Hj.
        -- rewrite occurs_at_0. congruence.
        -- rewrite occurs_at_S. apply Hleft. simpl in Hj. lia.
      * by rewrite Hlen.
Qed.

Lemma find_Some_length sub s i :
  PyStr.find sub s = Some i -> (i + length sub <= length s)%nat.
Proof.
  intros H. destruct (find_Some _ _ _ H) as [[Heq _] Hlen].
  apply (f_equal length) in Heq. rewrite !length_app, Hlen in Heq. lia.
Qed.

(** One round of the loop substitutes the leftmost occurrence. *)
Lemma replace_substring_1 old new s :
  first_replaced old new s (PyStr.replace_substring old new 1 s).
Proof.
  simpl. destruct (PyStr.find old s) as [i|] eqn:Hf.
  - right. exists (take i s), (drop (i + length old) s). split; [|done].
    by apply find_Some.
  - left. split; [by apply find_None | done].
Qed.

Lemma replace_interleave_1 new s :
  PyStr.replace_interleave new 1 s = new ++ s.
Proof. by destruct s. Qed.

(** Unbounded, the loop substitutes every non-overlapping occurrence. *)
Lemma replace_substring_all old new n s :
  old <> [] -> (length s < n)%nat ->
  all_replaced old new s (PyStr.replace_substring old new n s).
Proof.
  intros Hold. revert s. induction n as [|n IH]; intros s Hn; [lia|].
  simpl. destruct (PyStr.find old s) as [i|] eqn:Hf.
  - apply (all_replaced_step _ _ _ (take i s) (drop (i + length old) s));
      [by apply find_Some|].
    apply IH. pose proof (find_Some_length _ _ _ Hf).
    rewrite length_drop. destruct old; [done|]. simpl in *. lia.
  - apply all_replaced_none. by apply find_None.
Qed.

Lemma replace_interleave_all new n s :
  (length s < n)%nat -> PyStr.replace_interleave new n s = interleaved new s.
Proof.
  unfold interleaved. revert s. induction n as [|n IH]; intros s Hn; [lia|].
  destruct s as [|c s]; simpl.
  - done.
  - by rewrite IH by (simpl in Hn; lia).
Qed.

(** The two readings of the specification determine the result. *)

Lemma leftmost_occurs old s pre post :
  leftmost old s pre post -> occurs_at old s (length pre).
Proof.
  intros [-> _]. unfold occurs_at. rewrite drop_app_length. apply take_app_length.
Qed.

Lemma leftmost_unique old s pre1 post1 pre2 post2 :
  leftmost old s pre1 post1 -> leftmost old s pre2 post2 ->
  pre1 = pre2 /\ post1 = post2.
Proof.
  intros H1 H2.
  assert (length pre1 = length pre2) as Hlen.
  { pose proof (leftmost_occurs _ _ _ _ H1) as O1.
    pose proof (leftmost_occurs _ _ _ _ H2) as O2.
    destruct H1 as [_ L1], H2 as [_ L2].
    destruct (Nat.lt_trichotomy (length pre1) (length pre2)) as [Hlt|[Heq|Hgt]];
      [by destruct (L2 _ Hlt) | done | by destruct (L1 _ Hgt)]. }
  destruct H1 as [E1 _], H2 as [E2 _]. rewrite E1 in E2.
  apply app_inj_1 in E2 as [-> E2]; [|done]. by apply app_inv_head in E2.
Qed.

Lemma first_replaced_unique old new s r1 r2 :
  first_replaced old new s r1 -> first_replaced old new s r2 -> r1 = r2.
Proof.
  intros [[N1 ->]|(p1 & q1 & L1 & ->)] [[N2 ->]|(p2 & q2 & L2 & ->)]; [done| | |].
  - destruct N1. eexists. by eapply leftmost_occurs.
  - destruct N2. eexists. by eapply leftmost_occurs.
  - by destruct (leftmost_unique _ _ _ _ _ _ L1 L2) as [-> ->].
Qed.

Lemma all_replaced_unique old new s r1 r2 :
  all_replaced old new s r1 -> all_replaced old new s r2 -> r1 = r2.
Proof.
  intros H1. revert r2. induction H1 as [s N1|s p1 q1 r1 L1 _ IH]; intros r2 H2.
  - destruct H2 as [s _|s p2 q2 r2 L2 _]; [done|].
    destruct N1. eexists. by eapply leftmost_occurs.
  - destruct H2 as [s N2|s p2 q2 r2 L2 H2].
    + destruct N2. eexists. by eapply leftmost_occurs.
    + destruct (leftmost_unique _ _ _ _ _ _ L1 L2) as [-> ->].
      by rewrite (IH _ H2).
Qed.

End ReplaceFacts.

(** ** Running the file tools *)

Section FileToolFacts.

Implicit Types (w : world) (path old new : str) (f : file).

Lemma find_occurs sub s i : PyStr.find sub s = Some i -> occurs sub s.
Proof.
  intros H. destruct (find_Some _ _ _ H) as [[Heq _] Hlen]. exists i.
  unfold occurs_at. rewrite Heq at 1. rewrite <- Hlen at 1.
  rewrite drop_app_length. by rewrite take_app_length.
Qed.

Lemma replace_absent s old new count :
  ~ occurs old s -> PyStr.replace s old new count = s.
Proof.
  intros Hno. unfold PyStr.replace. destruct old as [|a old].
  - destruct Hno. by exists 0%nat.
  - destruct (PyStr.find (a :: old) s) as [i|] eqn:Hf.
    + destruct Hno. by eapply find_occurs.
    + destruct (if count <? 0 then _ else _); simpl; [done | by rewrite Hf].
Qed.

Lemma universal_newlines_id s : CR ∉ s -> universal_newlines s = s.
Proof.
  induction s as [|c s IH]; [done|]. intros Hc. simpl.
  apply not_elem_of_cons in Hc as [Hne Hc]. case_decide; [congruence|].
  by rewrite IH.
Qed.

(** What [file_edit] does to a regular file, return statement by return
    statement. *)
Lemma file_edit_regular w path f old new (replace_all : bool) :
  disk w !! path = Some (Regular f) ->
  file_edit path old new replace_all w =
    match read_fault f with
    | Some msg =>
        (Returned (Reply EditFailed (lit "Failed to edit file: " ++ msg)),
         World (disk w) (journal w ++ [EvIsFile path; EvRead path]))
    | None =>
        let result :=
          PyStr.replace (universal_newlines (data f)) old new
            (if replace_all then -1 else 1) in
        match write_fault f with
        | Some msg =>
            (Returned (Reply EditFailed (lit "Failed to edit file: " ++ msg)),
             World (disk w) (journal w ++ [EvIsFile path; EvRead path]))
        | None =>
            (Returned (Reply Success (lit "Successfully edited " ++ path)),
             World (<[path := Regular (File result None None)]> (disk w))
                   (journal w ++ [EvIsFile path; EvRead path; EvWrite path result]))
        end
    end.
Proof.
  intros Hf. unfold file_edit, bind, try_except, os_path_isfile, read_text,
    write_text, ret, record. simpl. rewrite Hf. simpl. rewrite Hf.
  destruct f as [d [rm|] [wm|]]; simpl; rewrite <- ?app_assoc; simpl;
    try done; rewrite ?Hf; simpl; rewrite <- ?app_assoc; simpl;
    by destruct replace_all.
Qed.

Lemma file_edit_missing w path old new (replace_all : bool) :
  (forall f, disk w !! path <> Some (Regular f)) ->
  file_edit path old new replace_all w =
    (Returned (Reply FileNotFound (lit "File not found: " ++ path ++ lit ". Recheck the path.")),
     World (disk w) (journal w ++ [EvIsFile path])).
Proof.
  intros Hno. unfold file_edit, bind, os_path_isfile, ret, record.
  destruct (disk w !! path) as [[f|]|] eqn:Hd; try done. by destruct (Hno f).
Qed.

End FileToolFacts.

(** ** C1: what [file_edit] substitutes *)

(** C1, as amended.  For a regular file that opens for reading and for
    writing, [file_edit] reports success and writes back the text it read:
    the file's characters with every CR LF and every lone CR delivered as
    LF.  On that text, [replace_all] substitutes every non-overlapping
    occurrence of [old] scanning from the left (for the empty [old], [new]
    goes in front of every character and at the end); without [replace_all]
    only the leftmost occurrence is substituted; when [old] does not occur
    the text read is written back as it is.  The text read is the original
    whenever the original holds no carriage return. *)
Theorem file_edit_substitutes w path f old new (replace_all : bool) :
  disk w !! path = Some (Regular f) ->
  read_fault f = None ->
  write_fault f = None ->
  let content := universal_newlines (data f) in
  exists result,
    file_edit path old new replace_all w =
      (Returned (Reply Success (lit "Successfully edited " ++ path)),
       World (<[path := Regular (File result None None)]> (disk w))
             (journal w ++ [EvIsFile path; EvRead path; EvWrite path result]))
    /\ (replace_all = true -> old <> [] -> all_replaced old new content result)
    /\ (replace_all = true -> old = [] -> result = interleaved new content)
    /\ (replace_all = false -> first_replaced old new content result)
    /\ (~ occurs old content -> result = content)
    /\ (CR ∉ data f -> content = data f).
Proof.
  intros Hf Hr Hw content.
  exists (PyStr.replace content old new (if replace_all then -1 else 1)).
  split; [by rewrite (file_edit_regular _ _ f), Hr, Hw|].
  repeat apply conj.
  - intros -> Hold. destruct old as [|a old]; [done|].
    apply (replace_substring_all _ _ (S (length content))); [done | lia].
  - intros -> ->. apply (replace_interleave_all _ (S (length content))). lia.
  - intros ->. destruct old as [|a old].
    + change (PyStr.replace content [] new 1)
        with (PyStr.replace_interleave new 1 content).
      rewrite replace_interleave_1. right. exists [], content.
      split; [|done]. split; [done | simpl; intros; lia].
    + apply (replace_substring_1 (a :: old)).
  - apply replace_absent.
  - apply universal_newlines_id.
Qed.

Lemma file_edit_substitutes_witness :
  exists result,
    file_edit (lit "/f") (lit "an") (lit "AN") true (one_file (lit "/f") (lit "banana")) =
      (Returned (Reply Success (lit "Successfully edited " ++ lit "/f")),
       World (<[lit "/f" := Regular (File result None None)]>
                (disk (one_file (lit "/f") (lit "banana"))))
             (journal (one_file (lit "/f") (lit "banana"))
                ++ [EvIsFile (lit "/f"); EvRead (lit "/f"); EvWrite (lit "/f") result]))
    /\ all_replaced (lit "an") (lit "AN") (lit "banana") result.
Proof.
  destruct (file_edit_substitutes (one_file (lit "/f") (lit "banana")) (lit "/f")
              (File (lit "banana") None None) (lit "an") (lit "AN") true)
    as (result & Hrun & Hall & _); [reflexivity | reflexivity | reflexivity |].
  exists result. split; [exact Hrun|]. apply Hall; [reflexivity | discriminate].
Defined.

(** C1 as stated fails on a file with a CR LF line ending: [old] occurs
    nowhere in it, the edit reports success, and the file comes back with
    different bytes. *)
Lemma file_edit_absent_changes_bytes :
  let original := lit "a" ++ [CR; LF] ++ lit "b" in
  let run := file_edit (lit "/f") (lit "z") (lit "y") false (one_file (lit "/f") original) in
  ~ occurs (lit "z") original
  /\ run.1 = Returned (Reply Success (lit "Successfully edited /f"))
  /\ disk run.2 !! lit "/f" = Some (Regular (File (lit "a" ++ [LF] ++ lit "b") None None))
  /\ lit "a" ++ [LF] ++ lit "b" <> original.
Proof.
  repeat apply conj.
  - by apply find_None.
  - by vm_compute.
  - by vm_compute.
  - discriminate.
Qed.

(** ** C2: [file_multi_edit] against two calls of [file_edit] *)

Section MultiEditFacts.

Implicit Types (w : world) (path : str) (f : file) (e : gmap str pyval).

(** The loop touches no file. *)
Lemma apply_edits_pure edits content :
  exists r, forall w, apply_edits edits content w = (r, w).
Proof.
  revert content. induction edits as [|e rest IH]; intros content; simpl.
  - by exists (Returned content).
  - destruct (is_None _ || is_None _); [apply IH|].
    destruct (dict_get e (lit "old_string") VNone) as [|b1|z1|o|l1] eqn:Ho,
             (dict_get e (lit "new_string") VNone) as [|b2|z2|n|l2] eqn:Hn,
             (truthy _);
      unfold bind, replace_dyn, raise, ret;
      try (eexists; intros w; reflexivity);
      match goal with
      | |- context [PyStr.replace ?c ?o ?n ?k] =>
          destruct (IH (PyStr.replace c o n k)) as [r Hr]; exists r; intros w; apply Hr
      end.
Qed.

Lemma apply_edits_well_formed e rest old new flag content w :
  well_formed e old new flag ->
  apply_edits (e :: rest) content w =
  apply_edits rest (PyStr.replace content old new (if flag then -1 else 1)) w.
Proof.
  intros [Ho Hn Hfl]. simpl.
  assert (dict_get e (lit "old_string") VNone = VStr old) as ->
    by (unfold dict_get; by rewrite Ho).
  assert (dict_get e (lit "new_string") VNone = VStr new) as ->
    by (unfold dict_get; by rewrite Hn).
  simpl. rewrite Hfl. by destruct flag.
Qed.

Lemma file_multi_edit_regular w path f edits :
  disk w !! path = Some (Regular f) ->
  file_multi_edit path edits w =
    let w1 := World (disk w) (journal w ++ [EvIsFile path; EvRead path]) in
    match read_fault f with
    | Some msg =>
        (Returned (Reply EditFailed (lit "Failed to edit file: " ++ msg)), w1)
    | None =>
        match (apply_edits edits (universal_newlines (data f)) w1).1 with
        | Raised e =>
            (Returned (Reply EditFailed (lit "Failed to edit file: " ++ exn_str e)), w1)
        | Returned final =>
            match write_fault f with
            | Some msg =>
                (Returned (Reply EditFailed (lit "Failed to edit file: " ++ msg)), w1)
            | None =>
                (Returned (Reply Success (lit "Successfully applied multiple edits to " ++ path)),
                 World (<[path := Regular (File final None None)]> (disk w))
                       (journal w ++ [EvIsFile path; EvRead path; EvWrite path final]))
            end
        end
    end.
Proof.
  intros Hf. unfold file_multi_edit, bind, try_except, os_path_isfile, read_text,
    write_text, ret, record. simpl. rewrite Hf. simpl. rewrite <- !app_assoc. simpl.
  rewrite Hf. destruct f as [d [rm|] wf]; simpl; [done|].
  destruct (apply_edits_pure edits (universal_newlines d)) as [r Hr].
  rewrite Hr. simpl. destruct r as [final|e]; [|done]. simpl. rewrite Hf.
  destruct wf as [wm|]; simpl; [done|]. by rewrite <- !app_assoc.
Qed.

End MultiEditFacts.

(** C2, as amended.  For a regular file that opens for reading and for
    writing and two entries that carry both texts: when the content that
    the first edit leaves in the file holds no carriage return,
    [file_multi_edit] with the two entries leaves the store that
    [file_edit] with the first and then [file_edit] with the second
    leave, and all three calls report success. *)
Theorem multi_edit_composes w path f e1 e2 old1 new1 flag1 old2 new2 flag2 mid :
  disk w !! path = Some (Regular f) ->
  read_fault f = None ->
  write_fault f = None ->
  well_formed e1 old1 new1 flag1 ->
  well_formed e2 old2 new2 flag2 ->
  disk (file_edit path old1 new1 flag1 w).2 !! path = Some (Regular mid) ->
  CR ∉ data mid ->
  let first := file_edit path old1 new1 flag1 w in
  let second := file_edit path old2 new2 flag2 first.2 in
  let both := file_multi_edit path [e1; e2] w in
  disk both.2 = disk second.2
  /\ both.1 = Returned (Reply Success (lit "Successfully applied multiple edits to " ++ path))
  /\ first.1 = Returned (Reply Success (lit "Successfully edited " ++ path))
  /\ second.1 = Returned (Reply Success (lit "Successfully edited " ++ path)).
Proof.
  intros Hf Hr Hw H1 H2 Hmid Hcr. cbv zeta.
  rewrite (file_multi_edit_regular _ _ f) by done.
  rewrite (file_edit_regular w _ f) in Hmid |- * by done.
  rewrite Hr, Hw in Hmid |- *. cbv zeta in Hmid |- *.
  rewrite (apply_edits_well_formed e1 [e2] old1 new1 flag1) by done.
  rewrite (apply_edits_well_formed e2 [] old2 new2 flag2) by done.
  simpl in Hmid |- *. rewrite lookup_insert_eq in Hmid. injection Hmid as <-.
  simpl in Hcr.
  set (r1 := PyStr.replace (universal_newlines (data f)) old1 new1
               (if flag1 then -1 else 1)) in *.
  rewrite (file_edit_regular _ _ (File r1 None None)) by apply lookup_insert_eq.
  simpl. rewrite insert_insert_eq, (universal_newlines_id r1) by done. done.
Qed.

Lemma multi_edit_composes_witness :
  let w := one_file (lit "/f") (lit "one two") in
  let e1 := edit_entry (lit "one") (lit "<m>") false in
  let e2 := edit_entry (lit "<m>") (lit "three") true in
  disk (file_multi_edit (lit "/f") [e1; e2] w).2
  = disk (file_edit (lit "/f") (lit "<m>") (lit "three") true
            (file_edit (lit "/f") (lit "one") (lit "<m>") false w).2).2.
Proof.
  apply (multi_edit_composes (one_file (lit "/f") (lit "one two")) (lit "/f")
           (File (lit "one two") None None)
           (edit_entry (lit "one") (lit "<m>") false)
           (edit_entry (lit "<m>") (lit "three") true)
           (lit "one") (lit "<m>") false (lit "<m>") (lit "three") true
           (File (lit "<m> two") None None)).
  - reflexivity.
  - reflexivity.
  - reflexivity.
  - split; reflexivity.
  - split; reflexivity.
  - vm_compute. reflexivity.
  - vm_compute. intros H. repeat (apply elem_of_cons in H as [H|H]; [discriminate H|]).
    by apply elem_of_nil in H.
Defined.

(** C2 as stated fails when the first edit puts a carriage return into the
    file: the second [file_edit] reads it back as a line feed, while
    [file_multi_edit] hands the carriage return itself to the second
    entry. *)
Lemma multi_edit_differs_from_two_edits :
  let w := one_file (lit "/f") (lit "a") in
  let e1 := edit_entry (lit "a") [CR] false in
  let e2 := edit_entry [CR] (lit "X") false in
  well_formed e1 (lit "a") [CR] false
  /\ well_formed e2 [CR] (lit "X") false
  /\ disk (file_multi_edit (lit "/f") [e1; e2] w).2 !! lit "/f"
     = Some (Regular (File (lit "X") None None))
  /\ disk (file_edit (lit "/f") [CR] (lit "X") false
             (file_edit (lit "/f") (lit "a") [CR] false w).2).2 !! lit "/f"
     = Some (Regular (File [LF] None None))
  /\ lit "X" <> [LF].
Proof.
  repeat apply conj; try reflexivity; try (by vm_compute); discriminate.
Qed.

(** ** C3: [file_read] *)

Section ReadFacts.

Implicit Types (w : world) (path : str) (f : file).

Lemma join_split_lines s : PyStr.join (split_lines s) = s.
Proof.
  unfold PyStr.join. induction s as [|c s IH]; [done|]. simpl.
  case_decide; simpl; [by rewrite IH|].
  destruct (split_lines s) as [|l ls]; simpl in *; by rewrite <- IH.
Qed.

(** [lines[o:][:l]] is [lines[o:o+l]] for non-negative [o] and [l]. *)
Lemma py_slice_offset_limit {A} (lines : list A) (o l : Z) :
  0 <= o -> 0 <= l ->
  py_slice (py_slice lines (Some o) None) None (Some l)
  = py_slice lines (Some o) (Some (o + l)).
Proof.
  intros Ho Hl. unfold py_slice, slice_index. simpl.
  destruct (Z.ltb_spec o 0), (Z.ltb_spec l 0), (Z.ltb_spec (o + l) 0); try lia.
  rewrite Nat.sub_0_r, drop_0.
  rewrite (take_ge (drop _ lines)) by (rewrite length_drop; lia).
  rewrite length_drop. f_equal. lia.
Qed.

Lemma py_slice_beyond {A} (lines : list A) (o : Z) (stop : option Z) :
  Z.of_nat (length lines) <= o -> py_slice lines (Some o) stop = [].
Proof.
  intros Ho. unfold py_slice, slice_index. simpl.
  destruct (Z.ltb_spec o 0); [lia|].
  rewrite drop_ge by lia. by rewrite take_nil.
Qed.

Lemma py_slice_truncated {A} (lines : list A) (o l : Z) :
  0 <= o -> Z.of_nat (length lines) <= o + l ->
  py_slice lines (Some o) (Some (o + l)) = drop (Z.to_nat o) lines.
Proof.
  intros Ho Hl. unfold py_slice, slice_index. simpl.
  destruct (Z.ltb_spec o 0), (Z.ltb_spec (o + l) 0); try lia.
  destruct (decide (o <= Z.of_nat (length lines))).
  - replace (Z.min o (Z.of_nat (length lines))) with o by lia.
    apply take_ge. rewrite length_drop. lia.
  - rewrite !drop_ge by lia. by rewrite take_nil.
Qed.

Lemma file_read_regular w path f offset limit :
  disk w !! path = Some (Regular f) ->
  file_read path offset limit w =
    (match read_fault f with
     | Some msg => Returned (Reply ReadFailed (lit "Failed to read file: " ++ msg))
     | None =>
         let lines := split_lines (universal_newlines (data f)) in
         let lines := match offset with
                      | Some o => py_slice lines (Some o) None
                      | None => lines
                      end in
         let lines := match limit with
                      | Some l => py_slice lines None (Some l)
                      | None => lines
                      end in
         Returned (Reply Success (PyStr.join lines))
     end,
     World (disk w) (journal w ++ [EvIsFile path; EvRead path])).
Proof.
  intros Hf. unfold file_read, read_lines, bind, try_except, os_path_isfile,
    read_text, ret, record. simpl. rewrite Hf. simpl. rewrite Hf.
  rewrite <- !app_assoc. by destruct (read_fault f).
Qed.

End ReadFacts.

(** C3.  For a regular file that opens for reading and non-negative [o]
    and [l]: without offset and limit [file_read] returns the whole text of
    the file as text mode delivers it; with them it returns the
    concatenation of the slice [o : o+l] of the lines of that text; an
    offset at or beyond the number of lines gives the empty text, a limit
    that reaches beyond it gives the lines from [o] on; every one of these
    calls returns its text and leaves the store as it was.  The text
    delivered is the file's characters themselves when these hold no
    carriage return. *)
Theorem file_read_slices w path f (o l : Z) :
  disk w !! path = Some (Regular f) ->
  read_fault f = None ->
  0 <= o -> 0 <= l ->
  let full := universal_newlines (data f) in
  let lines := split_lines full in
  (file_read path None None w).1 = Returned (Reply Success full)
  /\ (file_read path (Some o) (Some l) w).1
     = Returned (Reply Success (PyStr.join (py_slice lines (Some o) (Some (o + l)))))
  /\ (Z.of_nat (length lines) <= o ->
      (file_read path (Some o) (Some l) w).1 = Returned (Reply Success []))
  /\ (Z.of_nat (length lines) <= o + l ->
      (file_read path (Some o) (Some l) w).1
      = Returned (Reply Success (PyStr.join (drop (Z.to_nat o) lines))))
  /\ disk (file_read path (Some o) (Some l) w).2 = disk w
  /\ disk (file_read path None None w).2 = disk w
  /\ (CR ∉ data f -> full = data f).
Proof.
  intros Hf Hr Ho Hl full lines.
  rewrite !(file_read_regular _ _ f) by done. rewrite Hr. cbv zeta. simpl.
  fold full. fold lines. rewrite py_slice_offset_limit by done.
  repeat apply conj; try done.
  - unfold lines. by rewrite join_split_lines.
  - intros Hlen. by rewrite py_slice_beyond.
  - intros Hlen. by rewrite py_slice_truncated.
  - apply universal_newlines_id.
Qed.

Lemma file_read_slices_witness :
  let text := lit "a" ++ [LF] ++ lit "b" ++ [LF] ++ lit "c" ++ [LF] in
  (file_read (lit "/f") (Some 1) (Some 1) (one_file (lit "/f") text)).1
  = Returned (Reply Success (lit "b" ++ [LF]))
  /\ (file_read (lit "/f") (Some 2) (Some 5) (one_file (lit "/f") text)).1
     = Returned (Reply Success (lit "c" ++ [LF])).
Proof.
  split.
  - destruct (file_read_slices
                (one_file (lit "/f") (lit "a" ++ [LF] ++ lit "b" ++ [LF] ++ lit "c" ++ [LF]))
                (lit "/f")
                (File (lit "a" ++ [LF] ++ lit "b" ++ [LF] ++ lit "c" ++ [LF]) None None)
                1 1) as (_ & H & _); [reflexivity | reflexivity | lia | lia |].
    exact H.
  - destruct (file_read_slices
                (one_file (lit "/f") (lit "a" ++ [LF] ++ lit "b" ++ [LF] ++ lit "c" ++ [LF]))
                (lit "/f")
                (File (lit "a" ++ [LF] ++ lit "b" ++ [LF] ++ lit "c" ++ [LF]) None None)
                2 5) as (_ & _ & _ & H & _); [reflexivity | reflexivity | lia | lia |].
    apply H. vm_compute. discriminate.
Defined.

(** ** C6: a path that names no regular file *)

Lemma file_multi_edit_missing w path edits :
  (forall f, disk w !! path <> Some (Regular f)) ->
  file_multi_edit path edits w =
    (Returned (Reply FileNotFound (lit "File not found: " ++ path ++ lit ". Recheck the path.")),
     World (disk w) (journal w ++ [EvIsFile path])).
Proof.
  intros Hno. unfold file_multi_edit, bind, os_path_isfile, ret, record.
  destruct (disk w !! path) as [[f|]|] eqn:Hd; try done. by destruct (Hno f).
Qed.




(** ** C9: the single write of [file_multi_edit] *)



Example multi_edit_writes_once_ex :
  journal (file_multi_edit (lit "/f")
             [edit_entry (lit "one") (lit "<m>") false;
              edit_entry (lit "<m>") (lit "three") true]
             (one_file (lit "/f") (lit "one two"))).2
  = [EvIsFile (lit "/f"); EvRead (lit "/f"); EvWrite (lit "/f") (lit "three two")].
Proof. by vm_compute. Qed.

(** A loosely typed entry in the middle of the list aborts the loop; nothing
    is written. *)
Example multi_edit_type_error_ex :
  let run := file_multi_edit (lit "/f")
               [edit_entry (lit "one") (lit "<m>") false;
                <[lit "old_string" := VInt 5]> (edit_entry [] (lit "x") false)]
               (one_file (lit "/f") (lit "one two")) in
  run.1 = Returned (Reply EditFailed
            (lit "Failed to edit file: replace() argument 1 must be str, not int"))
  /\ disk run.2 = disk (one_file (lit "/f") (lit "one two"))
  /\ journal run.2 = [EvIsFile (lit "/f"); EvRead (lit "/f")].
Proof. by vm_compute. Qed.

(** ** C10: [file_replace] against [file_edit] *)

Lemma file_replace_regular w path f old new (replace_all : bool) :
  disk w !! path = Some (Regular f) ->
  file_replace path old new replace_all w =
    match read_fault f with
    | Some msg =>
        (Returned (Reply EditFailed (lit "Failed to replace text in file: " ++ msg)),
         World (disk w) (journal w ++ [EvIsFile path; EvRead path]))
    | None =>
        let result :=
          PyStr.replace (universal_newlines (data f)) old new
            (if replace_all then -1 else 1) in
        match write_fault f with
        | Some msg =>
            (Returned (Reply EditFailed (lit "Failed to replace text in file: " ++ msg)),
             World (disk w) (journal w ++ [EvIsFile path; EvRead path]))
        | None =>
            (Returned (Reply Success (lit "Successfully replaced text in " ++ path)),
             World (<[path := Regular (File result None None)]> (disk w))
                   (journal w ++ [EvIsFile path; EvRead path; EvWrite path result]))
        end
    end.
Proof.
  intros Hf. unfold file_replace, bind, try_except, os_path_isfile, read_text,
    write_text, ret, record. simpl. rewrite Hf. simpl. rewrite Hf.
  destruct f as [d [rm|] [wm|]]; simpl; rewrite <- ?app_assoc; simpl;
    try done; rewrite ?Hf; simpl; rewrite <- ?app_assoc; simpl;
    by destruct replace_all.
Qed.

Lemma file_replace_missing w path old new (replace_all : bool) :
  (forall f, disk w !! path <> Some (Regular f)) ->
  file_replace path old new replace_all w =
    (Returned (Reply FileNotFound (lit "File not found: " ++ path ++ lit ". Recheck the path.")),
     World (disk w) (journal w ++ [EvIsFile path])).
Proof.
  intros Hno. unfold file_replace, bind, os_path_isfile, ret, record.
  destruct (disk w !! path) as [[f|]|] eqn:Hd; try done. by destruct (Hno f).
Qed.

(** C10.  For every store, path, old text, new text and flag,
    [file_replace] and [file_edit] make the same calls and leave the same
    store, neither raises, and their replies are of the same kind: both a
    success, both [FileNotFound] with the same text, or both a failure with
    the same cause; the texts differ in their wording only. *)
Theorem file_replace_is_file_edit w path old new (replace_all : bool) :
  let edit := file_edit path old new replace_all w in
  let repl := file_replace path old new replace_all w in
  edit.2 = repl.2
  /\ exists r_edit r_repl,
       edit.1 = Returned r_edit
       /\ repl.1 = Returned r_repl
       /\ kind r_edit = kind r_repl
       /\ match kind r_edit with
          | Success =>
              text r_edit = lit "Successfully edited " ++ path
              /\ text r_repl = lit "Successfully replaced text in " ++ path
          | FileNotFound =>
              text r_edit = lit "File not found: " ++ path ++ lit ". Recheck the path."
              /\ text r_repl = text r_edit
          | EditFailed =>
              exists cause,
                text r_edit = lit "Failed to edit file: " ++ cause
                /\ text r_repl = lit "Failed to replace text in file: " ++ cause
          | _ => False
          end.
Proof.
  cbv zeta. destruct (disk w !! path) as [[f|]|] eqn:Hd.
  - rewrite (file_edit_regular _ _ f), (file_replace_regular _ _ f) by done.
    destruct (read_fault f) as [rm|]; [|destruct (write_fault f) as [wm|]];
      cbv zeta; (split; [done|]); eexists _, _;
      (split; [done|]); (split; [done|]); (split; [done|]); simpl; eauto.
  - rewrite file_edit_missing, file_replace_missing by (intros f; congruence).
    split; [done|]. eexists _, _. by repeat apply conj.
  - rewrite file_edit_missing, file_replace_missing by (intros f; congruence).
    split; [done|]. eexists _, _. by repeat apply conj.
Qed.

Example file_replace_ex :
  let w := one_file (lit "/f") (lit "banana") in
  file_replace (lit "/f") (lit "an") (lit "AN") true w
  = (Returned (Reply Success (lit "Successfully replaced text in /f")),
     (file_edit (lit "/f") (lit "an") (lit "AN") true w).2).
Proof. by vm_compute. Qed.

(** ** Facts about [str.strip] *)

Section StripFacts.

Implicit Types (s : str).




End StripFacts.

(** ** Running the command tool *)

Section ProcessFacts.

Implicit Types (o : os) (b : behaviour) (t : gmap Z process).

Lemma add_offspring_below parent group first n t k :
  k < first -> add_offspring parent group first n t !! k = t !! k.
Proof.
  revert first t. induction n as [|n IH]; intros first t Hk; simpl; [done|].
  rewrite IH by lia. apply lookup_insert_ne. lia.
Qed.

Lemma add_offspring_at parent group first n t i :
  (i < n)%nat ->
  add_offspring parent group first n t !! (first + Z.of_nat i)
  = Some (Process parent group true).
Proof.
  revert first t i. induction n as [|n IH]; intros first t i Hi; [lia|]. simpl.
  destruct i as [|i].
  - rewrite add_offspring_below by lia.
    replace (first + Z.of_nat 0) with first by lia. apply lookup_insert_eq.
  - replace (first + Z.of_nat (S i)) with (first + 1 + Z.of_nat i) by lia.
    apply IH. lia.
Qed.

Lemma run_foreground o command cwd timeout b :
  shell o command cwd = inr b ->
  run_shell_command command cwd timeout false o =
    let child := next_pid o in
    let after calls :=
      OS (alter mark_dead child (spawned o b false)) (self_pid o) (self_pgid o)
         (child + 1 + Z.of_nat (offspring b)) (shell o)
         (syslog o ++ EvSpawn child command cwd false
                      :: EvCommunicate child (Some timeout) :: calls) in
    let expired :=
      (Returned (Reply CommandTimeout (lit "Command " ++ command ++ lit " timed out")),
       after [EvKill child; EvWait child]) in
    match run b with
    | Exits seconds rc out err =>
        if seconds <=? timeout then
          (Returned (if rc =? 0 then Reply Success (PyStr.strip out)
                     else Reply CommandFailed (lit "Command failed: " ++ PyStr.strip err)),
           after [])
        else expired
    | Hangs => expired
    end.
Proof.
  intros Hsh. unfold run_shell_command, subprocess_run, try_except, bind, popen,
    communicate, kill, wait, raise, ret, spawned. rewrite Hsh. simpl.
  destruct (run b) as [seconds rc out err|]; simpl.
  - destruct (seconds <=? timeout); simpl.
    + destruct (rc =? 0); simpl; by rewrite <- !app_assoc.
    + by rewrite <- !app_assoc.
  - by rewrite <- !app_assoc.
Qed.

Lemma run_background o command cwd timeout b :
  shell o command cwd = inr b ->
  run_shell_command command cwd timeout true o =
    let child := next_pid o in
    (Returned (Reply Started
                 (lit "Process started in background with PID " ++ PyStr.of_Z child)),
     OS (spawned o b true) (self_pid o) (self_pgid o)
        (child + 1 + Z.of_nat (offspring b)) (shell o)
        (syslog o ++ [EvSpawn child command cwd true])).
Proof.
  intros Hsh. unfold run_shell_command, try_except, bind, popen, ret, spawned.
  by rewrite Hsh.
Qed.

Lemma spawned_child o b setsid :
  spawned o b setsid !! next_pid o
  = Some (Process (self_pid o) (if setsid then next_pid o else self_pgid o) true).
Proof.
  unfold spawned. rewrite add_offspring_below by lia. apply lookup_insert_eq.
Qed.

Lemma spawned_offspring o b setsid i :
  (i < offspring b)%nat ->
  spawned o b setsid !! (next_pid o + 1 + Z.of_nat i)
  = Some (Process (next_pid o) (if setsid then next_pid o else self_pgid o) true).
Proof. intros Hi. unfold spawned. by apply add_offspring_at. Qed.

End ProcessFacts.

(** ** C4: a foreground command that exits with status zero *)




(** ** C7: a foreground command that exits with a non-zero status *)



(** ** C5: a foreground command that outlasts the timeout *)

(** C5, as amended.  When the command runs and is still running after
    [timeout] seconds, [run_shell_command] in foreground mode returns the
    [CommandTimeout] string, which names the command.  The child was
    spawned in the process group of the server, not in one of its own; it is
    killed and waited for; the calls made are the spawn, the wait with
    timeout, the kill of the child and the wait for it.  No descendant of
    the child is signalled: each is as alive afterwards as before. *)
Theorem foreground_timeout_kills_child o command cwd timeout b :
  shell o command cwd = inr b ->
  outlasts (run b) timeout ->
  let result := run_shell_command command cwd timeout false o in
  let child := next_pid o in
  result.1
  = Returned (Reply CommandTimeout (lit "Command " ++ command ++ lit " timed out"))
  /\ procs result.2 !! child = Some (Process (self_pid o) (self_pgid o) false)
  /\ syslog result.2
     = syslog o ++ [EvSpawn child command cwd false; EvCommunicate child (Some timeout);
                    EvKill child; EvWait child]
  /\ forall i, (i < offspring b)%nat ->
       procs result.2 !! (child + 1 + Z.of_nat i)
       = Some (Process child (self_pgid o) true).
Proof.
  intros Hsh Hout. cbv zeta. rewrite (run_foreground _ _ _ _ b) by done. cbv zeta.
  assert (alter mark_dead (next_pid o) (spawned o b false) !! next_pid o
          = Some (Process (self_pid o) (self_pgid o) false)) as Hchild
    by (by rewrite lookup_alter_eq, spawned_child).
  assert (forall i, (i < offspring b)%nat ->
            alter mark_dead (next_pid o) (spawned o b false)
              !! (next_pid o + 1 + Z.of_nat i)
            = Some (Process (next_pid o) (self_pgid o) true)) as Hoff.
  { intros i Hi. rewrite lookup_alter_ne by lia. by rewrite spawned_offspring. }
  destruct (run b) as [seconds rc out err|]; simpl in Hout.
  - destruct (Z.leb_spec seconds timeout); [lia|]. simpl.
    repeat apply conj; [done | exact Hchild | done | exact Hoff].
  - simpl. repeat apply conj; [done | exact Hchild | done | exact Hoff].
Qed.

Lemma foreground_timeout_kills_child_witness :
  (run_shell_command (lit "sleep 5") None 1 false
     (host (Behaviour (Exits 5 0 [] []) 1))).1
  = Returned (Reply CommandTimeout (lit "Command sleep 5 timed out")).
Proof.
  destruct (foreground_timeout_kills_child
              (host (Behaviour (Exits 5 0 [] []) 1)) (lit "sleep 5") None 1
              (Behaviour (Exits 5 0 [] []) 1)) as [H _];
    [reflexivity | simpl; lia |].
  exact H.
Defined.

(** C5 as stated fails: after the timeout of a shell that has one
    descendant running, the shell (pid 101) is dead but sits in the group of
    the server (100), not in a group of its own, and the descendant (pid
    102) is still alive. *)
Lemma foreground_timeout_leaves_descendants :
  let result := run_shell_command (lit "sleep 5") None 1 false
                  (host (Behaviour Hangs 1)) in
  result.1 = Returned (Reply CommandTimeout (lit "Command sleep 5 timed out"))
  /\ procs result.2 !! 101 = Some (Process 100 100 false)
  /\ procs result.2 !! 102 = Some (Process 101 100 true)
  /\ EvSpawn 101 (lit "sleep 5") None false ∈ syslog result.2.
Proof.
  repeat apply conj; try (by vm_compute). vm_compute. apply list_elem_of_here.
Qed.

(** ** C8: background mode *)

(** C8.  When the command can be spawned, [run_shell_command] in background
    mode spawns it with [setsid], so that the child leads a process group of
    its own, and returns the string that carries the pid of the child.  The
    spawn is its only call: it does not wait for the child, which is left
    running, and it reads no output.  The timeout plays no part: every
    timeout gives the same reply and the same state. *)
Theorem background_returns_pid o command cwd timeout b :
  shell o command cwd = inr b ->
  let result := run_shell_command command cwd timeout true o in
  let child := next_pid o in
  result.1
  = Returned (Reply Started
                (lit "Process started in background with PID " ++ PyStr.of_Z child))
  /\ procs result.2 !! child = Some (Process (self_pid o) child true)
  /\ syslog result.2 = syslog o ++ [EvSpawn child command cwd true]
  /\ forall timeout', run_shell_command command cwd timeout' true o = result.
Proof.
  intros Hsh. cbv zeta. rewrite !(run_background _ _ _ _ b) by done. cbv zeta.
  repeat apply conj; try done.
  - simpl. by rewrite spawned_child.
  - intros timeout'. by rewrite (run_background _ _ _ _ b).
Qed.

Lemma background_returns_pid_witness :
  run_shell_command (lit "sleep 5") None 1 true (host (Behaviour (Exits 5 0 [] []) 0))
  = (Returned (Reply Started (lit "Process started in background with PID 101")),
     OS (<[101 := Process 100 101 true]> {[ 100 := Process 1 100 true ]}) 100 100 102
        (shell (host (Behaviour (Exits 5 0 [] []) 0)))
        [EvSpawn 101 (lit "sleep 5") None true]).
Proof.
  destruct (background_returns_pid (host (Behaviour (Exits 5 0 [] []) 0))
              (lit "sleep 5") None 1 (Behaviour (Exits 5 0 [] []) 0))
    as (_ & _ & _ & H); [reflexivity|].
  rewrite <- (H 3600). reflexivity.
Defined.

(** * Further properties of the tools *)

(** ** The loop of [file_multi_edit] *)

Section LoopFacts.

Implicit Types (w : world) (path : str) (f : file) (e : gmap str pyval)
  (edits : list (gmap str pyval)).

Lemma apply_edits_skipped e edits content w :
  skipped e = true -> apply_edits (e :: edits) content w = apply_edits edits content w.
Proof. intros H. simpl. unfold skipped in H. by rewrite H. Qed.

Lemma apply_edits_filter edits content w :
  apply_edits (filter (fun e => skipped e = false) edits) content w
  = apply_edits edits content w.
Proof.
  revert content w. induction edits as [|e edits IH]; intros content w; [done|].
  destruct (skipped e) eqn:Hsk.
  - rewrite filter_cons_False by congruence. by rewrite apply_edits_skipped.
  - rewrite filter_cons_True by done. simpl. unfold skipped in Hsk. rewrite Hsk.
    unfold bind. destruct (if truthy _ then _ else _) as [[c'|err] w']; [apply IH|done].
Qed.

Lemma apply_edits_app edits1 edits2 content w :
  apply_edits (edits1 ++ edits2) content w
  = match apply_edits edits1 content w with
    | (Returned content', w') => apply_edits edits2 content' w'
    | (Raised err, w') => (Raised err, w')
    end.
Proof.
  revert content w. induction edits1 as [|e edits1 IH]; intros content w; simpl; [done|].
  destruct (_ || _); [apply IH|]. unfold bind.
  destruct (if truthy _ then _ else _) as [[c'|err] w']; [apply IH|done].
Qed.

Lemma apply_edits_fold edits ops content w :
  Forall2 (fun e op => well_formed e op.1.1 op.1.2 op.2) edits ops ->
  apply_edits edits content w = (Returned (foldl apply_op content ops), w).
Proof.
  intros H. revert content. induction H as [|e [[old new] flag] edits ops Hwf _ IH];
    intros content; [done|].
  rewrite (apply_edits_well_formed e edits old new flag) by done. apply IH.
Qed.

Lemma apply_edits_ill_typed edits content :
  Exists (fun e => ill_typed e = true) edits ->
  exists msg, forall w, apply_edits edits content w = (Raised (TypeError msg), w).
Proof.
  revert content. induction edits as [|e edits IH]; intros content Hex;
    [by apply Exists_nil in Hex|].
  apply Exists_cons in Hex. simpl. unfold ill_typed, skipped in Hex.
  destruct (is_None (dict_get e (lit "old_string") VNone)
            || is_None (dict_get e (lit "new_string") VNone)) eqn:Hsk.
  { destruct Hex as [Hex|Hex]; [done|]. by apply IH. }
  destruct (dict_get e (lit "old_string") VNone) as [|b1|z1|o|l1] eqn:Ho,
           (dict_get e (lit "new_string") VNone) as [|b2|z2|n|l2] eqn:Hn;
    simpl in Hsk, Hex; try discriminate Hsk;
    unfold bind, replace_dyn, raise, ret;
    try (destruct (truthy _); eexists; intros w; reflexivity).
  destruct Hex as [Hex|Hex]; [done|].
  destruct (truthy _);
    match goal with
    | |- context [PyStr.replace ?c ?o ?n ?k] =>
        destruct (IH (PyStr.replace c o n k) Hex) as [msg Hmsg]; exists msg;
        intros w; apply Hmsg
    end.
Qed.

End LoopFacts.

Lemma skipped_lookup (e : gmap str pyval) :
  e !! lit "old_string" = None \/ e !! lit "old_string" = Some VNone
  \/ e !! lit "new_string" = None \/ e !! lit "new_string" = Some VNone ->
  skipped e = true.
Proof.
  unfold skipped, dict_get. intros [H|[H|[H|H]]]; rewrite H; simpl;
    [done | done | apply orb_true_r | apply orb_true_r].
Qed.

(** X1.  An entry of [file_multi_edit] that lacks [old_string] or
    [new_string], or gives [None] for one of them, is passed over wherever
    it stands in the list: the call replies and leaves the store and the
    journal exactly as without that entry, whatever else the entry holds. *)
Theorem multi_edit_passes_over_incomplete_entry
    (w : world) (path : str) (edits1 edits2 : list (gmap str pyval)) (e : gmap str pyval) :
  e !! lit "old_string" = None \/ e !! lit "old_string" = Some VNone
  \/ e !! lit "new_string" = None \/ e !! lit "new_string" = Some VNone ->
  file_multi_edit path (edits1 ++ e :: edits2) w
  = file_multi_edit path (edits1 ++ edits2) w.
Proof.
  intros He. apply skipped_lookup in He.
  assert (forall content w',
            apply_edits (edits1 ++ e :: edits2) content w'
            = apply_edits (edits1 ++ edits2) content w') as Hloop.
  { intros content w'. rewrite <- (apply_edits_filter (edits1 ++ e :: edits2)),
      <- (apply_edits_filter (edits1 ++ edits2)), !filter_app.
    rewrite filter_cons_False; [done | congruence]. }
  destruct (disk w !! path) as [[f|]|] eqn:Hd.
  - rewrite !(file_multi_edit_regular _ _ f) by done. cbv zeta. by rewrite Hloop.
  - by rewrite !file_multi_edit_missing by (intros f; congruence).
  - by rewrite !file_multi_edit_missing by (intros f; congruence).
Qed.

Lemma multi_edit_passes_over_incomplete_entry_witness :
  file_multi_edit (lit "/f")
    ([edit_entry (lit "a") (lit "b") false]
       ++ <[lit "old_string" := VInt 5]> {[ lit "replace_all" := VBool true ]}
       :: [edit_entry (lit "b") (lit "c") true])
    (one_file (lit "/f") (lit "aa"))
  = file_multi_edit (lit "/f")
      ([edit_entry (lit "a") (lit "b") false] ++ [edit_entry (lit "b") (lit "c") true])
      (one_file (lit "/f") (lit "aa")).
Proof.
  apply multi_edit_passes_over_incomplete_entry.
  right. right. left. reflexivity.
Defined.

(** X2.  For a regular file that opens for reading and for writing and a
    list of entries of any length that all carry both texts,
    [file_multi_edit] reports success and writes, in one write, the text
    read with the substitutions folded over it from left to right; for the
    empty list that is the text read itself. *)
Theorem multi_edit_folds_entries
    (w : world) (path : str) (f : file) (edits : list (gmap str pyval))
    (ops : list (str * str * bool)) :
  disk w !! path = Some (Regular f) ->
  read_fault f = None ->
  write_fault f = None ->
  Forall2 (fun e op => well_formed e op.1.1 op.1.2 op.2) edits ops ->
  let final := foldl apply_op (universal_newlines (data f)) ops in
  file_multi_edit path edits w
  = (Returned (Reply Success (lit "Successfully applied multiple edits to " ++ path)),
     World (<[path := Regular (File final None None)]> (disk w))
           (journal w ++ [EvIsFile path; EvRead path; EvWrite path final])).
Proof.
  intros Hd Hr Hw Hwf. cbv zeta. rewrite (file_multi_edit_regular _ _ f) by done.
  cbv zeta. rewrite Hr, Hw, (apply_edits_fold edits ops) by done. done.
Qed.

Lemma multi_edit_folds_entries_witness :
  disk (file_multi_edit (lit "/f")
          [edit_entry (lit "x") (lit "yy") true; edit_entry (lit "yy") (lit "z") false;
           edit_entry (lit "z") (lit "") true]
          (one_file (lit "/f") (lit "x-x"))).2 !! lit "/f"
  = Some (Regular (File (lit "-yy") None None)).
Proof.
  rewrite (multi_edit_folds_entries (one_file (lit "/f") (lit "x-x")) (lit "/f")
             (File (lit "x-x") None None) _
             [(lit "x", lit "yy", true); (lit "yy", lit "z", false); (lit "z", lit "", true)]).
  - reflexivity.
  - reflexivity.
  - reflexivity.
  - reflexivity.
  - repeat constructor.
Defined.

(** X3.  When some entry of the list passes the [None] test but gives
    [old_string] or [new_string] a value that is not a string,
    [file_multi_edit] on a readable regular file replies with the
    [EditFailed] string of a [TypeError] and writes nothing: the store is
    the original one, also when entries in front of the faulty one were
    applied in memory. *)
Theorem multi_edit_type_error_writes_nothing
    (w : world) (path : str) (f : file) (edits : list (gmap str pyval)) :
  disk w !! path = Some (Regular f) ->
  read_fault f = None ->
  Exists (fun e => ill_typed e = true) edits ->
  exists msg,
    file_multi_edit path edits w
    = (Returned (Reply EditFailed (lit "Failed to edit file: " ++ msg)),
       World (disk w) (journal w ++ [EvIsFile path; EvRead path])).
Proof.
  intros Hd Hr Hex.
  destruct (apply_edits_ill_typed edits (universal_newlines (data f)) Hex) as [msg Hmsg].
  exists msg. rewrite (file_multi_edit_regular _ _ f) by done. cbv zeta.
  by rewrite Hr, Hmsg.
Qed.

Lemma multi_edit_type_error_writes_nothing_witness :
  exists msg,
    file_multi_edit (lit "/f")
      [edit_entry (lit "a") (lit "b") true;
       <[lit "new_string" := VList []]> (edit_entry (lit "b") [] false)]
      (one_file (lit "/f") (lit "aa"))
    = (Returned (Reply EditFailed (lit "Failed to edit file: " ++ msg)),
       World (disk (one_file (lit "/f") (lit "aa")))
             (journal (one_file (lit "/f") (lit "aa"))
                ++ [EvIsFile (lit "/f"); EvRead (lit "/f")])).
Proof.
  apply (multi_edit_type_error_writes_nothing _ _ (File (lit "aa") None None)).
  - reflexivity.
  - reflexivity.
  - apply Exists_cons_tl, Exists_cons_hd. reflexivity.
Defined.

(** X4.  Splitting a list of edits over two calls.  Let a first
    [file_multi_edit] with [edits1] succeed on a regular file that opens for
    reading and for writing and leave a content without a carriage return.
    Then a second call with [edits2] gives the very reply that one call
    with [edits1 ++ edits2] gives; when that reply is a success both ways
    leave the same store; when it is not, the one call leaves the original
    store while the two calls leave what the first one wrote. *)
Theorem multi_edit_split_in_two_calls
    (w : world) (path : str) (f mid : file) (edits1 edits2 : list (gmap str pyval))
    (reply1 : reply) :
  disk w !! path = Some (Regular f) ->
  read_fault f = None ->
  write_fault f = None ->
  (file_multi_edit path edits1 w).1 = Returned reply1 ->
  kind reply1 = Success ->
  disk (file_multi_edit path edits1 w).2 !! path = Some (Regular mid) ->
  CR ∉ data mid ->
  let first := file_multi_edit path edits1 w in
  let second := file_multi_edit path edits2 first.2 in
  let both := file_multi_edit path (edits1 ++ edits2) w in
  exists reply2,
    both.1 = Returned reply2
    /\ second.1 = Returned reply2
    /\ (kind reply2 = Success -> disk both.2 = disk second.2)
    /\ (kind reply2 <> Success -> disk both.2 = disk w /\ disk second.2 = disk first.2).
Proof.
  intros Hd Hr Hw Hfirst Hok Hmid Hcr. cbv zeta.
  rewrite (file_multi_edit_regular _ _ f) in Hfirst, Hmid |- * by done.
  rewrite (file_multi_edit_regular w _ f) by done.
  cbv zeta in Hfirst, Hmid |- *. rewrite Hr, Hw in Hfirst, Hmid |- *.
  rewrite apply_edits_app.
  destruct (apply_edits_pure edits1 (universal_newlines (data f))) as [r1 H1].
  rewrite H1 in Hfirst, Hmid |- *. simpl in Hfirst, Hmid |- *.
  destruct r1 as [c1|err]; [|injection Hfirst as <-; discriminate Hok].
  simpl in Hmid |- *. rewrite lookup_insert_eq in Hmid. injection Hmid as <-.
  simpl in Hcr.
  rewrite (file_multi_edit_regular _ _ (File c1 None None)) by apply lookup_insert_eq.
  simpl. rewrite (universal_newlines_id c1) by done.
  destruct (apply_edits_pure edits2 c1) as [r2 H2]. rewrite !H2. simpl.
  destruct r2 as [c2|err]; eexists; (split; [done|]); (split; [done|]); simpl.
  - split; [intros _; by rewrite insert_insert_eq | done].
  - split; [discriminate | done].
Qed.

Lemma multi_edit_split_in_two_calls_witness :
  exists reply2,
    (file_multi_edit (lit "/f")
       ([edit_entry (lit "a") (lit "b") true] ++ [edit_entry (lit "bb") (lit "c") false])
       (one_file (lit "/f") (lit "aab"))).1 = Returned reply2
    /\ (file_multi_edit (lit "/f") [edit_entry (lit "bb") (lit "c") false]
          (file_multi_edit (lit "/f") [edit_entry (lit "a") (lit "b") true]
             (one_file (lit "/f") (lit "aab"))).2).1 = Returned reply2.
Proof.
  destruct (multi_edit_split_in_two_calls (one_file (lit "/f") (lit "aab")) (lit "/f")
              (File (lit "aab") None None) (File (lit "bbb") None None)
              [edit_entry (lit "a") (lit "b") true]
              [edit_entry (lit "bb") (lit "c") false]
              (Reply Success (lit "Successfully applied multiple edits to /f")))
    as (reply2 & Hb & Hs & _).
  - reflexivity.
  - reflexivity.
  - reflexivity.
  - by vm_compute.
  - reflexivity.
  - by vm_compute.
  - vm_compute. intros H. repeat (apply elem_of_cons in H as [H|H]; [discriminate H|]).
    by apply elem_of_nil in H.
  - exists reply2. by split.
Defined.

(** X5.  The loop of [file_multi_edit] tests [replace_all] for its truth
    value, whatever its type.  For an entry with both texts on a regular
    file that opens for reading and for writing, every occurrence is
    substituted exactly when the value is truthy; so a non-empty string
    (the string "false" too) and a non-zero number ask for all occurrences,
    while [None], [0], the empty string and the empty list ask for the first
    one only, as a missing key does. *)
Theorem multi_edit_flag_is_truth_value
    (w : world) (path : str) (f : file) (e : gmap str pyval) (old new : str) :
  disk w !! path = Some (Regular f) ->
  read_fault f = None ->
  write_fault f = None ->
  e !! lit "old_string" = Some (VStr old) ->
  e !! lit "new_string" = Some (VStr new) ->
  let content := universal_newlines (data f) in
  let written count := Some (Regular (File (PyStr.replace content old new count) None None)) in
  let after := disk (file_multi_edit path [e] w).2 !! path in
  (e !! lit "replace_all" = None -> after = written 1)
  /\ (forall v, e !! lit "replace_all" = Some v ->
      after = written (if truthy v then -1 else 1))
  /\ (forall s, e !! lit "replace_all" = Some (VStr s) -> s <> [] -> after = written (-1))
  /\ (forall n, e !! lit "replace_all" = Some (VInt n) -> n <> 0 -> after = written (-1))
  /\ (forall v, e !! lit "replace_all" = Some v ->
      v ∈ [VNone; VBool false; VInt 0; VStr []; VList []] -> after = written 1).
Proof.
  intros Hd Hr Hw Ho Hn. cbv zeta.
  assert (forall flag,
            truthy (dict_get e (lit "replace_all") (VBool false)) = flag ->
            disk (file_multi_edit path [e] w).2 !! path
            = Some (Regular (File (PyStr.replace (universal_newlines (data f)) old new
                                     (if flag then -1 else 1)) None None))) as Hrun.
  { intros flag Hflag. rewrite (file_multi_edit_regular _ _ f) by done. cbv zeta.
    rewrite Hr, Hw, (apply_edits_well_formed e [] old new flag) by done.
    simpl. apply lookup_insert_eq. }
  repeat apply conj.
  - intros Hnone. apply (Hrun false). unfold dict_get. by rewrite Hnone.
  - intros v Hv. apply (Hrun (truthy v)). unfold dict_get. by rewrite Hv.
  - intros s Hv Hs. apply (Hrun true). unfold dict_get. rewrite Hv. simpl.
    by rewrite bool_decide_eq_false_2.
  - intros n Hv Hnz. apply (Hrun true). unfold dict_get. rewrite Hv. simpl.
    by destruct (Z.eqb_spec n 0).
  - intros v Hv Hin. apply (Hrun false). unfold dict_get. rewrite Hv.
    repeat (apply elem_of_cons in Hin as [->|Hin]; [done|]).
    by apply elem_of_nil in Hin.
Qed.

Lemma multi_edit_flag_is_truth_value_witness :
  disk (file_multi_edit (lit "/f")
          [<[lit "replace_all" := VStr (lit "false")]> (edit_entry (lit "a") (lit "b") false)]
          (one_file (lit "/f") (lit "aaa"))).2 !! lit "/f"
  = Some (Regular (File (lit "bbb") None None)).
Proof.
  destruct (multi_edit_flag_is_truth_value (one_file (lit "/f") (lit "aaa")) (lit "/f")
              (File (lit "aaa") None None)
              (<[lit "replace_all" := VStr (lit "false")]>
                 (edit_entry (lit "a") (lit "b") false))
              (lit "a") (lit "b")) as (_ & _ & H & _);
    [reflexivity | reflexivity | reflexivity | reflexivity | reflexivity |].
  rewrite (H (lit "false")); [reflexivity | reflexivity | discriminate].
Defined.

(** ** Windows of [file_read] *)

Section WindowFacts.

Context {A : Type}.
Implicit Types (l : list A) (o k : Z).

Lemma py_slice_from l o :
  py_slice l (Some o) None = drop (slice_index (length l) o) l.
Proof.
  unfold py_slice. simpl. apply take_ge. rewrite length_drop. lia.
Qed.

Lemma py_slice_to l k :
  py_slice l None (Some k) = take (slice_index (length l) k) l.
Proof. unfold py_slice. simpl. by rewrite Nat.sub_0_r. Qed.

Lemma slice_index_nonneg n o :
  0 <= o -> slice_index n o = (Z.to_nat o `min` n)%nat.
Proof. intros Ho. unfold slice_index. destruct (Z.ltb_spec o 0); lia. Qed.

Lemma slice_index_neg n k :
  0 < k -> slice_index n (- k) = (n - Z.to_nat k)%nat.
Proof. intros Hk. unfold slice_index. destruct (Z.ltb_spec (- k) 0); lia. Qed.

Lemma py_slice_from_nonneg l o :
  0 <= o -> py_slice l (Some o) None = drop (Z.to_nat o) l.
Proof.
  intros Ho. rewrite py_slice_from, slice_index_nonneg by done.
  destruct (decide (Z.to_nat o <= length l)%nat).
  - by rewrite Nat.min_l.
  - rewrite Nat.min_r by lia. by rewrite !drop_ge by lia.
Qed.

Lemma py_slice_to_nonneg l k :
  0 <= k -> py_slice l None (Some k) = take (Z.to_nat k) l.
Proof.
  intros Hk. rewrite py_slice_to, slice_index_nonneg by done.
  destruct (decide (Z.to_nat k <= length l)%nat).
  - by rewrite Nat.min_l.
  - rewrite Nat.min_r by lia. by rewrite !take_ge by lia.
Qed.

End WindowFacts.

Section LineFacts.

Implicit Types (s l body : str) (ls : list str).

Lemma split_lines_proper s : proper_lines (split_lines s).
Proof.
  induction s as [|c s IH]; simpl; [constructor|]. case_decide as Hc.
  - subst c. apply (proper_cons []); [apply not_elem_of_nil | done].
  - destruct (split_lines s) as [|l ls]; [|inversion IH as [|l' Hne Hl|body ls' Hb Hls]; subst].
    + apply proper_last; [done|]. by apply not_elem_of_cons; split; [congruence | apply not_elem_of_nil].
    + apply proper_last; [done|]. apply not_elem_of_cons. split; [congruence | done].
    + apply (proper_cons (c :: body)); [|done].
      apply not_elem_of_cons. split; [congruence | done].
Qed.

Lemma split_lines_line body s :
  LF ∉ body -> split_lines (body ++ LF :: s) = (body ++ [LF]) :: split_lines s.
Proof.
  induction body as [|c body IH]; intros Hb; simpl.
  - done.
  - apply not_elem_of_cons in Hb as [Hc Hb]. case_decide; [congruence|].
    by rewrite IH.
Qed.

Lemma split_lines_partial l : l <> [] -> LF ∉ l -> split_lines l = [l].
Proof.
  induction l as [|c l IH]; intros Hne Hl; [done|]. simpl.
  apply not_elem_of_cons in Hl as [Hc Hl]. case_decide; [congruence|].
  destruct l as [|c' l]; [done|]. by rewrite IH.
Qed.

(** Splitting undoes joining on such a list of lines. *)
Lemma split_lines_join ls : proper_lines ls -> split_lines (PyStr.join ls) = ls.
Proof.
  unfold PyStr.join. induction 1 as [|l Hne Hl|body ls Hb _ IH]; simpl.
  - done.
  - rewrite app_nil_r. by apply split_lines_partial.
  - rewrite <- app_assoc. simpl. by rewrite split_lines_line, IH.
Qed.

Lemma proper_lines_drop n ls : proper_lines ls -> proper_lines (drop n ls).
Proof.
  intros H. revert n. induction H as [|l Hne Hl|body ls Hb Hls IH]; intros [|n]; simpl;
    try by constructor.
  - rewrite drop_nil. constructor.
  - apply IH.
Qed.

Lemma proper_lines_take n ls : proper_lines ls -> proper_lines (take n ls).
Proof.
  intros H. revert n. induction H as [|l Hne Hl|body ls Hb Hls IH]; intros [|n]; simpl;
    rewrite ?take_nil; by constructor.
Qed.

Lemma proper_lines_slice ls (start stop : option Z) :
  proper_lines ls -> proper_lines (py_slice ls start stop).
Proof. intros H. unfold py_slice. by apply proper_lines_take, proper_lines_drop. Qed.

Lemma py_slice_sublist {A} (l : list A) (start stop : option Z) :
  py_slice l start stop `sublist_of` l.
Proof.
  unfold py_slice. etrans; [apply sublist_take | apply sublist_drop].
Qed.

End LineFacts.

(** X6.  [file_read] hands a negative offset or limit to the slice as it
    is, so it counts from the end: on a regular file that opens for reading,
    offset [-k] with no limit returns the last [k] lines (all of them when
    the file has fewer), and limit [-k] with no offset returns all but the
    last [k] lines (nothing when the file has fewer); neither is an error. *)
Theorem file_read_counts_from_the_end (w : world) (path : str) (f : file) (k : Z) :
  disk w !! path = Some (Regular f) ->
  read_fault f = None ->
  0 < k ->
  let lines := split_lines (universal_newlines (data f)) in
  (file_read path (Some (- k)) None w).1
  = Returned (Reply Success (PyStr.join (drop (length lines - Z.to_nat k) lines)))
  /\ (file_read path None (Some (- k)) w).1
     = Returned (Reply Success (PyStr.join (take (length lines - Z.to_nat k) lines))).
Proof.
  intros Hd Hr Hk lines. rewrite !(file_read_regular _ _ f) by done. rewrite Hr.
  cbv zeta. simpl. fold lines.
  by rewrite py_slice_from, py_slice_to, slice_index_neg.
Qed.

Lemma file_read_counts_from_the_end_witness :
  let text := lit "a" ++ [LF] ++ lit "b" ++ [LF] ++ lit "c" ++ [LF] in
  (file_read (lit "/f") (Some (-1)) None (one_file (lit "/f") text)).1
  = Returned (Reply Success (lit "c" ++ [LF]))
  /\ (file_read (lit "/f") None (Some (-1)) (one_file (lit "/f") text)).1
     = Returned (Reply Success (lit "a" ++ [LF] ++ lit "b" ++ [LF])).
Proof.
  apply (file_read_counts_from_the_end
           (one_file (lit "/f") (lit "a" ++ [LF] ++ lit "b" ++ [LF] ++ lit "c" ++ [LF]))
           (lit "/f")
           (File (lit "a" ++ [LF] ++ lit "b" ++ [LF] ++ lit "c" ++ [LF]) None None) 1);
    [reflexivity | reflexivity | lia].
Defined.

(** X7.  Consecutive windows of [file_read] reassemble the text: on a
    regular file that opens for reading, for non-negative [o] and [l], the
    window of [l] lines at offset [o] followed by everything from offset
    [o + l] on is everything from offset [o] on; and the first [l] lines
    followed by everything from offset [l] on is the whole text. *)
Theorem file_read_windows_reassemble (w : world) (path : str) (f : file) (o l : Z) :
  disk w !! path = Some (Regular f) ->
  read_fault f = None ->
  0 <= o -> 0 <= l ->
  text_of (file_read path (Some o) (Some l) w).1
    ++ text_of (file_read path (Some (o + l)) None w).1
  = text_of (file_read path (Some o) None w).1
  /\ text_of (file_read path None (Some l) w).1
       ++ text_of (file_read path (Some l) None w).1
     = text_of (file_read path None None w).1.
Proof.
  intros Hd Hr Ho Hl. rewrite !(file_read_regular _ _ f) by done. rewrite Hr.
  cbv zeta. simpl.
  set (lines := split_lines (universal_newlines (data f))).
  rewrite !py_slice_from_nonneg, !py_slice_to_nonneg by lia.
  unfold PyStr.join. rewrite <- !concat_app. split.
  - rewrite Z2Nat.inj_add, <- drop_drop by done. by rewrite take_drop.
  - by rewrite take_drop.
Qed.

Lemma file_read_windows_reassemble_witness :
  let w := one_file (lit "/f") (lit "a" ++ [LF] ++ lit "b" ++ [LF] ++ lit "c") in
  text_of (file_read (lit "/f") (Some 1) (Some 1) w).1
    ++ text_of (file_read (lit "/f") (Some (1 + 1)) None w).1
  = text_of (file_read (lit "/f") (Some 1) None w).1.
Proof.
  apply (file_read_windows_reassemble
           (one_file (lit "/f") (lit "a" ++ [LF] ++ lit "b" ++ [LF] ++ lit "c"))
           (lit "/f") (File (lit "a" ++ [LF] ++ lit "b" ++ [LF] ++ lit "c") None None) 1 1);
    [reflexivity | reflexivity | lia | lia].
Defined.

(** X8.  Whatever offset and limit are, of either sign or absent, the text
    that [file_read] returns for a regular file that opens for reading is
    made of whole lines of the file: split into lines again it is a sublist
    of the lines of the file, in their order, and it has at most [limit]
    lines when a non-negative limit is given. *)
Theorem file_read_returns_whole_lines
    (w : world) (path : str) (f : file) (offset limit : option Z) :
  disk w !! path = Some (Regular f) ->
  read_fault f = None ->
  let lines := split_lines (universal_newlines (data f)) in
  let returned := split_lines (text_of (file_read path offset limit w).1) in
  returned `sublist_of` lines
  /\ forall l, limit = Some l -> 0 <= l -> (length returned <= Z.to_nat l)%nat.
Proof.
  intros Hd Hr lines. rewrite (file_read_regular _ _ f) by done. rewrite Hr.
  cbv zeta. simpl. fold lines.
  pose proof (split_lines_proper (universal_newlines (data f))) as Hp. fold lines in Hp.
  set (from := match offset with
               | Some o => py_slice lines (Some o) None
               | None => lines
               end).
  assert (proper_lines from /\ from `sublist_of` lines) as [Hpf Hsf].
  { unfold from. destruct offset; [|done].
    split; [by apply proper_lines_slice | apply py_slice_sublist]. }
  destruct limit as [l|].
  - rewrite split_lines_join by by apply proper_lines_slice. split.
    + etrans; [apply py_slice_sublist | done].
    + intros ? [= <-] Hl. rewrite py_slice_to_nonneg by done.
      rewrite length_take. lia.
  - rewrite split_lines_join by done. split; [done | discriminate].
Qed.

Lemma file_read_returns_whole_lines_witness :
  let w := one_file (lit "/f") (lit "a" ++ [LF] ++ lit "b" ++ [LF] ++ lit "c") in
  (length (split_lines (text_of (file_read (lit "/f") (Some (-2)%Z) (Some 1%Z) w).1))
   <= 1)%nat.
Proof.
  destruct (file_read_returns_whole_lines
              (one_file (lit "/f") (lit "a" ++ [LF] ++ lit "b" ++ [LF] ++ lit "c"))
              (lit "/f") (File (lit "a" ++ [LF] ++ lit "b" ++ [LF] ++ lit "c") None None)
              (Some (-2)) (Some 1)) as [_ H]; [reflexivity | reflexivity |].
  apply (H 1); [reflexivity | lia].
Defined.

(** ** More on substitution and on text-mode reading *)

Section TextFacts.

Implicit Types (s old new : str) (c : ascii).

Lemma replace_substring_elem old new n s c :
  c ∈ PyStr.replace_substring old new n s -> c ∈ s \/ c ∈ new.
Proof.
  revert s. induction n as [|n IH]; intros s; simpl; [by left|].
  destruct (PyStr.find old s) as [i|]; [|by left].
  rewrite !elem_of_app. intros [H|[H|H]].
  - left. by apply (subseteq_take i s).
  - by right.
  - destruct (IH _ H) as [H'|H']; [left; by eapply subseteq_drop | by right].
Qed.

Lemma replace_interleave_elem new n s c :
  c ∈ PyStr.replace_interleave new n s -> c ∈ s \/ c ∈ new.
Proof.
  revert s. induction n as [|n IH]; intros s; simpl; [by left|].
  rewrite elem_of_app. intros [H|H]; [by right|].
  destruct s as [|a s]; [by apply elem_of_nil in H|].
  apply elem_of_cons in H as [->|H]; [left; apply list_elem_of_here|].
  destruct (IH _ H) as [H'|H']; [left; by apply list_elem_of_further | by right].
Qed.

(** [str.replace] brings in no character that is in neither text. *)
Lemma replace_elem s old new count c :
  c ∈ PyStr.replace s old new count -> c ∈ s \/ c ∈ new.
Proof.
  unfold PyStr.replace. destruct old;
    [apply replace_interleave_elem | apply replace_substring_elem].
Qed.

Lemma universal_newlines_no_CR s : CR ∉ universal_newlines s.
Proof.
  assert (forall n s, (length s <= n)%nat -> CR ∉ universal_newlines s) as H.
  { clear s. induction n as [|n IH]; intros [|c s] Hn; simpl in *;
      try apply not_elem_of_nil; [lia|].
    case_decide as Hc.
    - apply not_elem_of_cons. split; [done|].
      destruct s as [|c' s]; [apply not_elem_of_nil|].
      case_decide; apply IH; simpl in *; lia.
    - apply not_elem_of_cons. split; [congruence | apply IH; lia]. }
  by apply (H (length s)).
Qed.

(** Substituting a text by itself changes nothing. *)
Lemma replace_self s old count : PyStr.replace s old old count = s.
Proof.
  unfold PyStr.replace. destruct old as [|a old].
  - generalize (if count <? 0 then S (length s) else Z.to_nat count). intros n.
    revert s. induction n as [|n IH]; intros [|c s]; simpl; by rewrite ?IH.
  - generalize (if count <? 0 then S (length s) else Z.to_nat count). intros n.
    revert s. induction n as [|n IH]; intros s; simpl; [done|].
    destruct (PyStr.find (a :: old) s) as [i|] eqn:Hf; [|done].
    rewrite IH. destruct (find_Some _ _ _ Hf) as [[Heq _] _].
    symmetry. exact Heq.
Qed.

Lemma find_char_None c s : PyStr.find [c] s = None -> c ∉ s.
Proof.
  induction s as [|a s IH]; simpl; [intros _; apply not_elem_of_nil|].
  case_decide as Hc; [done|]. destruct (PyStr.find [c] s); [done|].
  intros _. apply not_elem_of_cons. split; [done | by apply IH].
Qed.

Lemma find_char_Some c s i : PyStr.find [c] s = Some i -> c ∉ take i s.
Proof.
  revert i. induction s as [|a s IH]; intros i; simpl; [done|].
  case_decide as Hc; [intros [= <-]; apply not_elem_of_nil|].
  destruct (PyStr.find [c] s) as [k|]; [|done]. intros [= <-]. simpl.
  apply not_elem_of_cons. split; [done | by apply IH].
Qed.

(** Substituting every occurrence of one character by a text that lacks it
    leaves none. *)
Lemma replace_char_gone c new s :
  c ∉ new -> c ∉ PyStr.replace s [c] new (-1).
Proof.
  intros Hnew. change (PyStr.replace s [c] new (-1))
    with (PyStr.replace_substring [c] new (S (length s)) s).
  assert (forall n s, (length s < n)%nat -> c ∉ PyStr.replace_substring [c] new n s) as H.
  { clear s. induction n as [|n IH]; intros s Hn; [lia|]. simpl.
    destruct (PyStr.find [c] s) as [i|] eqn:Hf; [|by apply find_char_None].
    rewrite !not_elem_of_app. split; [by apply find_char_Some|]. split; [done|].
    apply IH. pose proof (find_Some_length _ _ _ Hf). rewrite length_drop.
    simpl in *. lia. }
  apply H. lia.
Qed.

End TextFacts.

(** ** What the file tools leave alone *)


(** X10.  A regular file that cannot be opened, for reading or, after a
    successful read, for writing: [file_edit] and [file_replace] reply with
    their failure strings, which carry the text of the error, and leave the
    store as it was; they made the [isfile] test and one read and no write.
    When it is the read that fails, [file_read] replies with its own
    failure string. *)
Theorem unopenable_file_is_reported_and_kept
    (w : world) (path old new : str) (replace_all : bool) (offset limit : option Z)
    (f : file) (msg : str) :
  disk w !! path = Some (Regular f) ->
  read_fault f = Some msg \/ (read_fault f = None /\ write_fault f = Some msg) ->
  let w' := World (disk w) (journal w ++ [EvIsFile path; EvRead path]) in
  file_edit path old new replace_all w
  = (Returned (Reply EditFailed (lit "Failed to edit file: " ++ msg)), w')
  /\ file_replace path old new replace_all w
     = (Returned (Reply EditFailed (lit "Failed to replace text in file: " ++ msg)), w')
  /\ (read_fault f = Some msg ->
      file_read path offset limit w
      = (Returned (Reply ReadFailed (lit "Failed to read file: " ++ msg)), w')).
Proof.
  intros Hd Hfault. cbv zeta.
  rewrite (file_edit_regular _ _ f), (file_replace_regular _ _ f),
    (file_read_regular _ _ f) by done.
  destruct Hfault as [Hr|[Hr Hw]].
  - rewrite Hr. repeat apply conj; try done.
  - rewrite Hr, Hw. cbv zeta. repeat apply conj; try done.
Qed.

Lemma unopenable_file_is_reported_and_kept_witness :
  let w := World {[ lit "/f" := Regular (File (lit "aa") None
                                          (Some (lit "[Errno 13] Permission denied: '/f'"))) ]}
                 [] in
  file_edit (lit "/f") (lit "a") (lit "b") true w
  = (Returned (Reply EditFailed
                 (lit "Failed to edit file: [Errno 13] Permission denied: '/f'")),
     World (disk w) [EvIsFile (lit "/f"); EvRead (lit "/f")]).
Proof.
  destruct (unopenable_file_is_reported_and_kept
              (World {[ lit "/f" := Regular (File (lit "aa") None
                                               (Some (lit "[Errno 13] Permission denied: '/f'"))) ]}
                     [])
              (lit "/f") (lit "a") (lit "b") true None None
              (File (lit "aa") None (Some (lit "[Errno 13] Permission denied: '/f'")))
              (lit "[Errno 13] Permission denied: '/f'")) as [H _].
  - reflexivity.
  - right. split; reflexivity.
  - exact H.
Defined.

(** ** Editing and reading back *)

(** X11.  Reading after editing.  On a regular file that opens for reading
    and for writing, when [new] holds no carriage return, a [file_read] of
    the whole file after a [file_edit] returns exactly what [str.replace]
    makes of the text that a [file_read] before the edit returns; and the
    edited file holds no carriage return. *)
Theorem file_read_after_file_edit
    (w : world) (path old new : str) (replace_all : bool) (f : file) :
  disk w !! path = Some (Regular f) ->
  read_fault f = None ->
  write_fault f = None ->
  CR ∉ new ->
  let before := text_of (file_read path None None w).1 in
  let edited := (file_edit path old new replace_all w).2 in
  (file_read path None None edited).1
  = Returned (Reply Success
                (PyStr.replace before old new (if replace_all then -1 else 1)))
  /\ exists f', disk edited !! path = Some (Regular f') /\ CR ∉ data f'.
Proof.
  intros Hd Hr Hw Hnew. cbv zeta.
  rewrite (file_read_regular w _ f), (file_edit_regular _ _ f) by done.
  rewrite Hr, Hw. cbv zeta. simpl. rewrite join_split_lines.
  set (result := PyStr.replace (universal_newlines (data f)) old new
                   (if replace_all then -1 else 1)).
  assert (CR ∉ result) as Hres.
  { intros Hin. apply replace_elem in Hin as [Hin|Hin]; [|done].
    by apply universal_newlines_no_CR in Hin. }
  rewrite (file_read_regular _ _ (File result None None)) by apply lookup_insert_eq.
  simpl. rewrite join_split_lines, (universal_newlines_id result) by done.
  split; [done|]. exists (File result None None). split; [apply lookup_insert_eq | done].
Qed.

Lemma file_read_after_file_edit_witness :
  let w := one_file (lit "/f") (lit "a" ++ [CR; LF] ++ lit "a") in
  (file_read (lit "/f") None None (file_edit (lit "/f") (lit "a") (lit "bb") false w).2).1
  = Returned (Reply Success (lit "bb" ++ [LF] ++ lit "a")).
Proof.
  destruct (file_read_after_file_edit
              (one_file (lit "/f") (lit "a" ++ [CR; LF] ++ lit "a")) (lit "/f")
              (lit "a") (lit "bb") false (File (lit "a" ++ [CR; LF] ++ lit "a") None None))
    as [H _]; [reflexivity | reflexivity | reflexivity | |exact H].
  vm_compute. intros H. repeat (apply elem_of_cons in H as [H|H]; [discriminate H|]).
  by apply elem_of_nil in H.
Defined.

(** X12.  Substituting a text by itself: on a regular file that opens for
    reading and for writing, [file_edit] with [new_string] equal to
    [old_string] reports success and writes back the text it read,
    whatever [old_string] and the flag are; when the file holds no carriage
    return the store is the same afterwards. *)
Theorem file_edit_same_text_keeps_content
    (w : world) (path old : str) (replace_all : bool) (f : file) :
  disk w !! path = Some (Regular f) ->
  read_fault f = None ->
  write_fault f = None ->
  let text := universal_newlines (data f) in
  file_edit path old old replace_all w
  = (Returned (Reply Success (lit "Successfully edited " ++ path)),
     World (<[path := Regular (File text None None)]> (disk w))
           (journal w ++ [EvIsFile path; EvRead path; EvWrite path text]))
  /\ (CR ∉ data f -> disk (file_edit path old old replace_all w).2 = disk w).
Proof.
  intros Hd Hr Hw. cbv zeta. rewrite (file_edit_regular _ _ f) by done.
  rewrite Hr, Hw. cbv zeta. rewrite replace_self. split; [done|].
  intros Hcr. simpl. rewrite universal_newlines_id by done.
  apply insert_id. rewrite Hd. destruct f as [d rf wf]. simpl in *. by subst.
Qed.

Lemma file_edit_same_text_keeps_content_witness :
  disk (file_edit (lit "/f") (lit "an") (lit "an") true
          (one_file (lit "/f") (lit "banana"))).2
  = disk (one_file (lit "/f") (lit "banana")).
Proof.
  destruct (file_edit_same_text_keeps_content (one_file (lit "/f") (lit "banana"))
              (lit "/f") (lit "an") true (File (lit "banana") None None))
    as [_ H]; [reflexivity | reflexivity | reflexivity |].
  apply H. vm_compute. intros Hin.
  repeat (apply elem_of_cons in Hin as [Hin|Hin]; [discriminate Hin|]).
  by apply elem_of_nil in Hin.
Defined.

(** X13.  Editing an empty file: on an empty regular file that opens for
    reading and for writing, [file_edit] reports success; with a non-empty
    [old_string] the file stays empty, with the empty [old_string] the file
    becomes [new_string], with either flag. *)
Theorem file_edit_on_empty_file
    (w : world) (path old new : str) (replace_all : bool) (f : file) :
  disk w !! path = Some (Regular f) ->
  read_fault f = None ->
  write_fault f = None ->
  data f = [] ->
  (file_edit path old new replace_all w).1
  = Returned (Reply Success (lit "Successfully edited " ++ path))
  /\ disk (file_edit path old new replace_all w).2 !! path
     = Some (Regular (File (match old with [] => new | _ :: _ => [] end) None None)).
Proof.
  intros Hd Hr Hw Hempty. rewrite (file_edit_regular _ _ f) by done.
  rewrite Hr, Hw, Hempty. cbv zeta. split; [done|]. simpl.
  rewrite lookup_insert_eq. do 3 f_equal.
  destruct old as [|a old], replace_all; simpl; by rewrite ?app_nil_r.
Qed.

Lemma file_edit_on_empty_file_witness :
  disk (file_edit (lit "/f") [] (lit "hello") false (one_file (lit "/f") [])).2 !! lit "/f"
  = Some (Regular (File (lit "hello") None None)).
Proof.
  destruct (file_edit_on_empty_file (one_file (lit "/f") []) (lit "/f") []
              (lit "hello") false (File [] None None)) as [_ H];
    [reflexivity | reflexivity | reflexivity | reflexivity |].
  exact H.
Defined.

(** X14.  Substituting every occurrence of a single character: on a
    regular file that opens for reading and for writing, after [file_edit]
    with a one-character [old_string], [replace_all] set and a
    [new_string] that lacks the character, the file holds the character
    nowhere. *)
Theorem file_edit_removes_every_character
    (w : world) (path new : str) (c : ascii) (f : file) :
  disk w !! path = Some (Regular f) ->
  read_fault f = None ->
  write_fault f = None ->
  c ∉ new ->
  exists f',
    disk (file_edit path [c] new true w).2 !! path = Some (Regular f')
    /\ c ∉ data f'.
Proof.
  intros Hd Hr Hw Hc. rewrite (file_edit_regular _ _ f) by done.
  rewrite Hr, Hw. cbv zeta. eexists. split; [apply lookup_insert_eq|].
  simpl. by apply replace_char_gone.
Qed.

Lemma file_edit_removes_every_character_witness :
  exists f',
    disk (file_edit (lit "/f") ["009"%char] (lit "  ") true
            (one_file (lit "/f") ("009"%char :: lit "a" ++ ["009"%char]))).2 !! lit "/f"
    = Some (Regular f')
    /\ "009"%char ∉ data f'.
Proof.
  apply (file_edit_removes_every_character _ _ _ _
           (File ("009"%char :: lit "a" ++ ["009"%char]) None None));
    [reflexivity | reflexivity | reflexivity |].
  vm_compute. intros Hin.
  repeat (apply elem_of_cons in Hin as [Hin|Hin]; [discriminate Hin|]).
  by apply elem_of_nil in Hin.
Defined.

(** ** More on the command tool *)



(** X15.  A spawn that fails (a [cwd] that does not exist, ...) is caught
    by neither handler of [run_shell_command]: in foreground and in
    background mode alike the exception leaves the tool, no process exists
    afterwards that did not exist before, and nothing is waited for or
    killed. *)
Theorem spawn_failure_leaves_the_tool
    (o : os) (command : str) (cwd : option str) (timeout : Z) (run_in_bg : bool)
    (msg : str) :
  shell o command cwd = inl msg ->
  run_shell_command command cwd timeout run_in_bg o = (Raised (SpawnFailed msg), o).
Proof.
  intros Hsh. unfold run_shell_command, subprocess_run, try_except, bind, popen, raise.
  destruct run_in_bg; by rewrite Hsh.
Qed.

Lemma spawn_failure_leaves_the_tool_witness :
  let o := OS {[ 100 := Process 1 100 true ]} 100 100 101
              (fun _ _ => inl (lit "[Errno 2] No such file or directory: '/nowhere'")) [] in
  run_shell_command (lit "ls") (Some (lit "/nowhere")) 60 false o
  = (Raised (SpawnFailed (lit "[Errno 2] No such file or directory: '/nowhere'")), o).
Proof.
  apply spawn_failure_leaves_the_tool. reflexivity.
Defined.




